(** * Eye-bar redaction: box geometry, hit testing and dragging

    A shallow embedding of the redaction-box engine of the face
    redaction page: [calculateRedactionBoxes], [drawRedactionBoxes],
    [findBoxAt], the pointer and touch handlers and the click handler of
    the detect button; then the reset, the debug toggle, the sizing of a
    loaded image, the model loader and the service worker.

    Conventions of the embedding.
    - A JavaScript number is a real number: the arithmetic of the page is
      read over [R], and [Math.atan2], [Math.hypot], [Math.sqrt],
      [Math.cos], [Math.sin], [Math.abs], [Math.max] and [Math.min] are
      their mathematical counterparts.  Rounding, [NaN] and the infinities
      are outside the model.
    - The script's top-level [let] variables and the parts of the DOM it
      touches are the fields of one [State] record, threaded explicitly.
    - Box objects live in a store indexed by addresses.  The array
      [redactionBoxes] and the variable [draggedBox] hold addresses, so
      that a drag mutates the very object the array refers to, and a
      reference kept across a recomputation goes stale the way it does in
      the page.
    - A statement that can throw returns [Threw] together with the state
      reached so far; [try]/[catch] resumes from that state. *)

From Stdlib Require Import Floats.
From Stdlib Require Import Reals Lra Psatz List ZArith String Bool Arith Lia.
From Stdlib Require Import DecimalString.
Import ListNotations.

Local Open Scope R_scope.

(** ** The numeric built-ins used by the page *)

Module Math.

Definition abs (v : R) : R := Rabs v.
Definition max (a b : R) : R := Rmax a b.
Definition min (a b : R) : R := Rmin a b.
Definition sqrt (v : R) : R := R_sqrt.sqrt v.
Definition cos (v : R) : R := Rtrigo_def.cos v.
Definition sin (v : R) : R := Rtrigo_def.sin v.

(** [Math.hypot(a, b)]: the square root of the sum of the squares. *)
Definition hypot (a b : R) : R := R_sqrt.sqrt (a * a + b * b).

(** [Math.atan2(y, x)]: the angle of the point [(x, y)], in [(-PI, PI]],
    by the quadrant table of the language standard. *)
Definition atan2 (y x : R) : R :=
  if Rlt_dec 0 x then atan (y / x)
  else if Rlt_dec x 0 then
    if Rle_dec 0 y then atan (y / x) + PI else atan (y / x) - PI
  else if Rlt_dec 0 y then PI / 2
  else if Rlt_dec y 0 then - (PI / 2)
  else 0.

End Math.

(** ** Data model *)

(** A keypoint of a detection.  The page tests [x !== undefined] before it
    uses a keypoint, so [x] may be absent; [y] is read unguarded. *)
Record Keypoint : Type := mkKeypoint {
  kp_x : option R;
  kp_y : R
}.

Record BoundingBox : Type := mkBoundingBox {
  originX : R;
  originY : R;
  bb_width : R;
  bb_height : R
}.

(** A detection.  Both fields are optional; an entry of [keypoints] may be
    a hole ([None]), which the page's [rightEye && leftEye] guards. *)
Record Detection : Type := mkDetection {
  boundingBox : option BoundingBox;
  keypoints : option (list (option Keypoint))
}.

(** The [type] tag of a box.  Only a ['rotated'] box has an [angle]. *)
Inductive BoxType : Type :=
| rotated (angle : R)
| standard.

(** A redaction box.  [(box_x, box_y)] is the centre of a rotated box and
    the top-left corner of a standard one. *)
Record RedactionBox : Type := mkBox {
  box_x : R;
  box_y : R;
  box_width : R;
  box_height : R;
  box_type : BoxType
}.

Definition set_box_x (v : R) (b : RedactionBox) : RedactionBox :=
  mkBox v (box_y b) (box_width b) (box_height b) (box_type b).

Definition set_box_y (v : R) (b : RedactionBox) : RedactionBox :=
  mkBox (box_x b) v (box_width b) (box_height b) (box_type b).

Definition isRotated (b : RedactionBox) : bool :=
  match box_type b with rotated _ => true | standard => false end.

(** ** The display surface *)

(** A pixel buffer obtained from [getImageData], known by its identity. *)
Definition ImageData : Type := nat.

(** One fill or stroke of a rectangle, issued under a transform that
    translates to [(op_tx, op_ty)] and then rotates by [op_rot].  The
    rectangle has corner [(op_x, op_y)] and size [(op_w, op_h)] in the
    transformed frame. *)
Record RectOp : Type := mkRectOp {
  op_stroke : bool;
  op_tx : R;
  op_ty : R;
  op_rot : R;
  op_x : R;
  op_y : R;
  op_w : R;
  op_h : R
}.

(** What the canvas shows: the last buffer written by [putImageData] (or
    nothing), and the rectangles drawn over it since, oldest first. *)
Record Surface : Type := mkSurface {
  base : option ImageData;
  drawn : list RectOp
}.

Record DOMRect : Type := mkDOMRect {
  rect_left : R;
  rect_top : R;
  rect_width : R;
  rect_height : R
}.

(** ** Page state *)

Definition Address : Type := nat.

Record State : Type := mkState {
  detector : bool;                       (* is [detector] non-null *)
  canvas_width : Z;
  canvas_height : Z;
  clientRect : DOMRect;                  (* canvas.getBoundingClientRect() *)
  pixels : Surface;
  cursor : string;                       (* canvas.style.cursor *)
  originalImageData : option ImageData;
  detections : list Detection;
  store : Address -> RedactionBox;       (* the box objects *)
  fresh : Address;                       (* first unused address *)
  redactionBoxes : list Address;
  draggedBox : option Address;
  dragOffset : R * R;
  status : string * bool;                (* message, isError *)
  downloadDisabled : bool;
  debugMode : bool
}.

Definition set_pixels (v : Surface) (s : State) : State :=
  mkState (detector s) (canvas_width s) (canvas_height s) (clientRect s)
    v (cursor s) (originalImageData s) (detections s) (store s) (fresh s)
    (redactionBoxes s) (draggedBox s) (dragOffset s) (status s)
    (downloadDisabled s) (debugMode s).

Definition set_cursor (v : string) (s : State) : State :=
  mkState (detector s) (canvas_width s) (canvas_height s) (clientRect s)
    (pixels s) v (originalImageData s) (detections s) (store s) (fresh s)
    (redactionBoxes s) (draggedBox s) (dragOffset s) (status s)
    (downloadDisabled s) (debugMode s).

Definition set_detections (v : list Detection) (s : State) : State :=
  mkState (detector s) (canvas_width s) (canvas_height s) (clientRect s)
    (pixels s) (cursor s) (originalImageData s) v (store s) (fresh s)
    (redactionBoxes s) (draggedBox s) (dragOffset s) (status s)
    (downloadDisabled s) (debugMode s).

Definition set_store (v : Address -> RedactionBox) (n : Address)
    (s : State) : State :=
  mkState (detector s) (canvas_width s) (canvas_height s) (clientRect s)
    (pixels s) (cursor s) (originalImageData s) (detections s) v n
    (redactionBoxes s) (draggedBox s) (dragOffset s) (status s)
    (downloadDisabled s) (debugMode s).

Definition set_redactionBoxes (v : list Address) (s : State) : State :=
  mkState (detector s) (canvas_width s) (canvas_height s) (clientRect s)
    (pixels s) (cursor s) (originalImageData s) (detections s) (store s)
    (fresh s) v (draggedBox s) (dragOffset s) (status s)
    (downloadDisabled s) (debugMode s).

Definition set_draggedBox (v : option Address) (s : State) : State :=
  mkState (detector s) (canvas_width s) (canvas_height s) (clientRect s)
    (pixels s) (cursor s) (originalImageData s) (detections s) (store s)
    (fresh s) (redactionBoxes s) v (dragOffset s) (status s)
    (downloadDisabled s) (debugMode s).

Definition set_dragOffset (v : R * R) (s : State) : State :=
  mkState (detector s) (canvas_width s) (canvas_height s) (clientRect s)
    (pixels s) (cursor s) (originalImageData s) (detections s) (store s)
    (fresh s) (redactionBoxes s) (draggedBox s) v (status s)
    (downloadDisabled s) (debugMode s).

Definition set_downloadDisabled (v : bool) (s : State) : State :=
  mkState (detector s) (canvas_width s) (canvas_height s) (clientRect s)
    (pixels s) (cursor s) (originalImageData s) (detections s) (store s)
    (fresh s) (redactionBoxes s) (draggedBox s) (dragOffset s) (status s)
    v (debugMode s).

(** [setStatus(msg, isError = false)]. *)
Definition setStatus (msg : string) (isError : bool) (s : State) : State :=
  mkState (detector s) (canvas_width s) (canvas_height s) (clientRect s)
    (pixels s) (cursor s) (originalImageData s) (detections s) (store s)
    (fresh s) (redactionBoxes s) (draggedBox s) (dragOffset s)
    (msg, isError) (downloadDisabled s) (debugMode s).

(** Writing a field of the object at address [a]. *)
Definition update (a : Address) (f : RedactionBox -> RedactionBox)
    (h : Address -> RedactionBox) : Address -> RedactionBox :=
  fun a' => if Nat.eqb a' a then f (h a') else h a'.

Definition mutate (a : Address) (f : RedactionBox -> RedactionBox)
    (s : State) : State :=
  set_store (update a f (store s)) (fresh s) s.

(** [redactionBoxes.push(box)] for a freshly built object [box]. *)
Definition push (box : RedactionBox) (s : State) : State :=
  set_redactionBoxes (redactionBoxes s ++ [fresh s])
    (set_store (fun a => if Nat.eqb a (fresh s) then box else store s a)
       (S (fresh s)) s).

(** The box objects of the array, in array order. *)
Definition boxes (s : State) : list RedactionBox :=
  map (store s) (redactionBoxes s).

(** ** Box calculator *)

(** The guards of the keypoint branch: [det.keypoints] is present with
    [length >= 2], entries 0 and 1 are objects, and both have an [x].
    Returns the two eyes with their [x] values. *)
Definition usableEyes (det : Detection)
    : option ((R * R) * (R * R)) :=
  match keypoints det with
  | Some kps =>
      if (2 <=? List.length kps)%nat then
        match nth_error kps 0, nth_error kps 1 with
        | Some (Some rightEye), Some (Some leftEye) =>
            match kp_x rightEye, kp_x leftEye with
            | Some rx, Some lx => Some ((rx, kp_y rightEye), (lx, kp_y leftEye))
            | _, _ => None
            end
        | _, _ => None
        end
      else None
  | None => None
  end.

(** The object built in the keypoint branch. *)
Definition rotatedBar (cw ch : R) (rightEye leftEye : R * R)
    : RedactionBox :=
  let rightEyeX :=
    if Rlt_dec (fst rightEye) 2 then fst rightEye * cw else fst rightEye in
  let rightEyeY :=
    if Rlt_dec (snd rightEye) 2 then snd rightEye * ch else snd rightEye in
  let leftEyeX :=
    if Rlt_dec (fst leftEye) 2 then fst leftEye * cw else fst leftEye in
  let leftEyeY :=
    if Rlt_dec (snd leftEye) 2 then snd leftEye * ch else snd leftEye in
  let dx := leftEyeX - rightEyeX in
  let dy := leftEyeY - rightEyeY in
  let angle := Math.atan2 dy dx in
  let distance := Math.hypot dx dy in
  let centerX := (rightEyeX + leftEyeX) / 2 in
  let centerY := (rightEyeY + leftEyeY) / 2 in
  let barWidth := distance * 2.5 in
  let barHeight := distance * 0.5 in
  mkBox centerX centerY barWidth barHeight (rotated angle).

(** The object built in the bounding-box fallback. *)
Definition eyeStrip (bb : BoundingBox) : RedactionBox :=
  let eyeY := originY bb + bb_height bb * 0.3 in
  let eyeWidth := bb_width bb * 0.8 in
  let eyeHeight := bb_height bb * 0.2 in
  mkBox (originX bb + bb_width bb * 0.1) (eyeY - eyeHeight / 2)
    eyeWidth eyeHeight standard.

(** One iteration of the loop of [calculateRedactionBoxes]. *)
Definition calculateStep (s : State) (det : Detection) : State :=
  match usableEyes det with
  | Some (rightEye, leftEye) =>
      (* push, then [continue] *)
      push (rotatedBar (IZR (canvas_width s)) (IZR (canvas_height s))
              rightEye leftEye) s
  | None =>
      match boundingBox det with
      | Some bb => push (eyeStrip bb) s
      | None => s
      end
  end.

Definition calculateRedactionBoxes (s : State) : State :=
  fold_left calculateStep (detections s) (set_redactionBoxes [] s).

(** ** Renderer *)

(** The [fillRect] call that paints a box: for a rotated box after
    [translate(box.x, box.y)] and [rotate(box.angle)], for a standard box
    under the identity transform. *)
Definition fillOf (box : RedactionBox) : RectOp :=
  match box_type box with
  | rotated angle =>
      mkRectOp false (box_x box) (box_y box) angle
        (- box_width box / 2) (- box_height box / 2)
        (box_width box) (box_height box)
  | standard =>
      mkRectOp false 0 0 0 (box_x box) (box_y box)
        (box_width box) (box_height box)
  end.

(** The calls issued for one box; the red outline of the debug mode is
    drawn for rotated boxes only. *)
Definition drawBox (debug : bool) (box : RedactionBox) : list RectOp :=
  match box_type box with
  | rotated angle =>
      fillOf box ::
      (if debug
       then [mkRectOp true (box_x box) (box_y box) angle
               (- box_width box / 2) (- box_height box / 2)
               (box_width box) (box_height box)]
       else [])
  | standard => [fillOf box]
  end.

Definition drawRedactionBoxes (s : State) : State :=
  set_pixels
    (mkSurface (base (pixels s))
       (drawn (pixels s) ++ flat_map (drawBox (debugMode s)) (boxes s)))
    s.

(** [ctx.putImageData(img, 0, 0)] with a buffer of the whole canvas. *)
Definition putImageData (img : ImageData) (s : State) : State :=
  set_pixels (mkSurface (Some img) []) s.

Definition redrawCanvas (s : State) : State :=
  drawRedactionBoxes
    (match originalImageData s with
     | Some img => putImageData img s
     | None => s
     end).

(** ** Hit tester *)

Definition Rleb (a b : R) : bool := if Rle_dec a b then true else false.

(** The containment test of [findBoxAt] for one box. *)
Definition hitTest (x y : R) (box : RedactionBox) : bool :=
  match box_type box with
  | rotated angle =>
      let dx := x - box_x box in
      let dy := y - box_y box in
      let cos := Math.cos (- angle) in
      let sin := Math.sin (- angle) in
      let localX := dx * cos - dy * sin in
      let localY := dx * sin + dy * cos in
      Rleb (Math.abs localX) (box_width box / 2)
      && Rleb (Math.abs localY) (box_height box / 2)
  | standard =>
      Rleb (box_x box) x && Rleb x (box_x box + box_width box)
      && Rleb (box_y box) y && Rleb y (box_y box + box_height box)
  end.

(** The loop of [findBoxAt], about to test index [n - 1], then downwards. *)
Fixpoint findBoxFrom (x y : R) (s : State) (n : nat) : option Address :=
  match n with
  | O => None
  | S i =>
      match nth_error (redactionBoxes s) i with
      | Some a =>
          if hitTest x y (store s a) then Some a else findBoxFrom x y s i
      | None => findBoxFrom x y s i
      end
  end.

Definition findBoxAt (x y : R) (s : State) : option Address :=
  findBoxFrom x y s (List.length (redactionBoxes s)).

(** ** Drag controller *)

Inductive PointerEvent : Type :=
| Mouse (clientX clientY : R)
| Touches (touches : list (R * R)).

(** [getPointerPos(e)].  Reading [e.touches[0].clientX] of an empty touch
    list throws, which is the [None] here. *)
Definition getPointerPos (e : PointerEvent) (s : State) : option (R * R) :=
  let rect := clientRect s in
  let scaleX := IZR (canvas_width s) / rect_width rect in
  let scaleY := IZR (canvas_height s) / rect_height rect in
  match e with
  | Mouse clientX clientY =>
      Some ((clientX - rect_left rect) * scaleX,
            (clientY - rect_top rect) * scaleY)
  | Touches ((clientX, clientY) :: _) =>
      Some ((clientX - rect_left rect) * scaleX,
            (clientY - rect_top rect) * scaleY)
  | Touches [] => None
  end.

(** The start of a drag, shared by [mousedown] and [touchstart] up to the
    cursor: hit test, then record the offset of the pointer from the box
    anchor (the two branches on the box type are the same in the page). *)
Definition grab (pos : R * R) (grabbing : bool) (s : State) : State :=
  let s1 := set_draggedBox (findBoxAt (fst pos) (snd pos) s) s in
  match draggedBox s1 with
  | Some a =>
      let s2 :=
        if isRotated (store s1 a)
        then set_dragOffset (fst pos - box_x (store s1 a),
                             snd pos - box_y (store s1 a)) s1
        else set_dragOffset (fst pos - box_x (store s1 a),
                             snd pos - box_y (store s1 a)) s1 in
      if grabbing then set_cursor "grabbing" s2 else s2
  | None => s1
  end.

Definition mousedown (clientX clientY : R) (s : State) : State :=
  match redactionBoxes s with
  | [] => s
  | _ :: _ =>
      match getPointerPos (Mouse clientX clientY) s with
      | Some pos => grab pos true s
      | None => s
      end
  end.

Definition touchstart (touches : list (R * R)) (s : State) : State :=
  match redactionBoxes s with
  | [] => s
  | _ :: _ =>
      match getPointerPos (Touches touches) s with
      | Some pos => grab pos false s
      | None => s
      end
  end.

(** "Keep box within canvas bounds": the block that both move handlers
    run on the dragged object after they have written its position. *)
Definition clampDragged (a : Address) (s : State) : State :=
  match box_type (store s a) with
  | rotated _ =>
      let halfDiag :=
        Math.sqrt (box_width (store s a) * box_width (store s a)
                   + box_height (store s a) * box_height (store s a)) / 2 in
      let s1 :=
        mutate a
          (set_box_x
             (Math.max halfDiag
                (Math.min (IZR (canvas_width s) - halfDiag)
                   (box_x (store s a))))) s in
      mutate a
        (set_box_y
           (Math.max halfDiag
              (Math.min (IZR (canvas_height s1) - halfDiag)
                 (box_y (store s1 a))))) s1
  | standard =>
      let s1 :=
        mutate a
          (set_box_x
             (Math.max 0
                (Math.min (IZR (canvas_width s) - box_width (store s a))
                   (box_x (store s a))))) s in
      mutate a
        (set_box_y
           (Math.max 0
              (Math.min (IZR (canvas_height s1) - box_height (store s1 a))
                 (box_y (store s1 a))))) s1
  end.

(** The body of a move while a box is held: write the new anchor, clamp,
    repaint. *)
Definition dragTo (pos : R * R) (a : Address) (s : State) : State :=
  let s1 := mutate a (set_box_x (fst pos - fst (dragOffset s))) s in
  let s2 := mutate a (set_box_y (snd pos - snd (dragOffset s1))) s1 in
  redrawCanvas (clampDragged a s2).

Definition mousemove (clientX clientY : R) (s : State) : State :=
  match redactionBoxes s with
  | [] => s
  | _ :: _ =>
      match getPointerPos (Mouse clientX clientY) s with
      | Some pos =>
          match draggedBox s with
          | Some a => dragTo pos a s
          | None =>
              set_cursor
                (match findBoxAt (fst pos) (snd pos) s with
                 | Some _ => "grab"
                 | None => "default"
                 end) s
          end
      | None => s
      end
  end.

Definition touchmove (touches : list (R * R)) (s : State) : State :=
  match draggedBox s with
  | Some a =>
      if (List.length touches =? 1)%nat then
        match getPointerPos (Touches touches) s with
        | Some pos => dragTo pos a s
        | None => s
        end
      else s
  | None => s
  end.

Definition mouseup (s : State) : State :=
  set_cursor "default" (set_draggedBox None s).

Definition mouseleave (s : State) : State :=
  set_cursor "default" (set_draggedBox None s).

Definition touchend (s : State) : State := set_draggedBox None s.

Definition touchcancel (s : State) : State := set_draggedBox None s.

(** A gesture-move event of either kind. *)
Inductive GestureMove : Type :=
| MouseMove (clientX clientY : R)
| TouchMove (touches : list (R * R)).

Definition gestureMove (g : GestureMove) (s : State) : State :=
  match g with
  | MouseMove clientX clientY => mousemove clientX clientY s
  | TouchMove touches => touchmove touches s
  end.

(** ** The detect button *)

(** How the awaited [detector.detect(canvas)] settles: it rejects, or it
    resolves with a result whose [detections] field is an array, or with
    a result for which [result?.detections] is nullish. *)
Inductive DetectResult : Type :=
| Rejected
| Resolved (found : option (list Detection)).

(** How a block of statements ends. *)
Inductive Completion : Type :=
| Normal
| Returned
| Threw.

Definition redactedMessage (n : nat) : string :=
  ("Redacted " ++ NilEmpty.string_of_uint (Nat.to_uint n) ++ " face"
   ++ (if (n =? 1)%nat then "" else "s"))%string.

(** The [try] block of the click handler.  The two statements that can
    throw are the awaited detector call and [putImageData], which raises
    a [TypeError] when [originalImageData] is still [null]. *)
Definition detectTry (r : DetectResult) (s : State) : State * Completion :=
  let s1 := setStatus "Detecting faces..." false s in
  match r with
  | Rejected => (s1, Threw)
  | Resolved found =>
      let s2 :=
        set_detections (match found with Some ds => ds | None => [] end) s1 in
      if (List.length (detections s2) =? 0)%nat then
        (setStatus "No faces detected" false s2, Returned)
      else
        match originalImageData s2 with
        | None => (s2, Threw)
        | Some img =>
            let s3 := putImageData img s2 in
            let s4 := calculateRedactionBoxes s3 in
            if (List.length (redactionBoxes s4) =? 0)%nat then
              (setStatus "Error creating redaction boxes" true s4, Returned)
            else
              let s5 := drawRedactionBoxes s4 in
              let s6 := set_downloadDisabled false s5 in
              (setStatus (redactedMessage (List.length (detections s6)))
                 false s6,
               Normal)
        end
  end.

(** The click handler of the detect button, with the awaited call taken
    in one step ([r] is what it settles to). *)
Definition detectClick (r : DetectResult) (s : State) : State :=
  if negb (detector s) then setStatus "Detector not initialized." true s
  else if (canvas_width s =? 0)%Z || (canvas_height s =? 0)%Z then s
  else
    match detectTry r s with
    | (s', Threw) => setStatus "Error processing image" true s'
    | (s', _) => s'
    end.

(** Does the handler reach its [catch] clause? *)
Definition raises (r : DetectResult) (s : State) : bool :=
  detector s
  && negb ((canvas_width s =? 0)%Z || (canvas_height s =? 0)%Z)
  && match snd (detectTry r s) with Threw => true | _ => false end.

(** ** Notions used by the statements *)

(** Per-axis normalisation as the design describes it: a value below 2 is
    a fraction of the extent, anything else is already in pixels. *)
Definition normalizeAxis (v extent : R) : R :=
  if Rlt_dec v 2 then v * extent else v.

(** A detection offers a usable keypoint pair: at least two keypoints,
    and the first two are present and carry an [x]. *)
Definition usablePair (det : Detection) (rightEye leftEye : Keypoint)
    (rx lx : R) : Prop :=
  exists kps,
    keypoints det = Some kps /\ (2 <= List.length kps)%nat /\
    nth_error kps 0 = Some (Some rightEye) /\
    nth_error kps 1 = Some (Some leftEye) /\
    kp_x rightEye = Some rx /\ kp_x leftEye = Some lx.

Definition hasUsablePair (det : Detection) : Prop :=
  exists rightEye leftEye rx lx, usablePair det rightEye leftEye rx lx.

(** Half of the diagonal of a box. *)
Definition halfDiag (box : RedactionBox) : R :=
  sqrt (box_width box * box_width box + box_height box * box_height box) / 2.

(** The canvas point [(px, py)] is painted by the rectangle call [op]:
    it is the image, under the translate-then-rotate transform of the
    call, of a point [(u, v)] of the rectangle. *)
Definition covers (op : RectOp) (px py : R) : Prop :=
  exists u v,
    Rmin (op_x op) (op_x op + op_w op) <= u <= Rmax (op_x op) (op_x op + op_w op) /\
    Rmin (op_y op) (op_y op + op_h op) <= v <= Rmax (op_y op) (op_y op + op_h op) /\
    px = op_tx op + (u * cos (op_rot op) - v * sin (op_rot op)) /\
    py = op_ty op + (u * sin (op_rot op) + v * cos (op_rot op)).

(** The point lies on the canvas of the state. *)
Definition onCanvas (s : State) (px py : R) : Prop :=
  0 <= px <= IZR (canvas_width s) /\ 0 <= py <= IZR (canvas_height s).

(** The rectangle of [box], turned to the angle [theta] about its centre,
    is painted entirely inside the canvas. *)
Definition insideAt (s : State) (box : RedactionBox) (theta : R) : Prop :=
  forall px py,
    covers (fillOf (mkBox (box_x box) (box_y box) (box_width box)
                      (box_height box) (rotated theta))) px py ->
    onCanvas s px py.

(** The invariant of a drag of a rotated box: whatever its angle, the
    held box is inside the canvas. *)
Definition heldInside (s : State) : Prop :=
  forall a, draggedBox s = Some a -> isRotated (store s a) = true ->
    forall theta, insideAt s (store s a) theta.

(** The move event is one that the handler acts on: the box array is not
    empty for a mouse move, exactly one contact for a touch move. *)
Definition acts (g : GestureMove) (s : State) : Prop :=
  match g with
  | MouseMove _ _ => redactionBoxes s <> []
  | TouchMove touches => List.length touches = 1%nat
  end.

(** Clamping as the design writes it: [max(lo, min(hi, v))]. *)
Definition clamp (lo hi v : R) : R := Math.max lo (Math.min hi v).

(** The boxes that one iteration of the calculator adds for [det] on a
    canvas of extents [cw] and [ch]. *)
Definition emitted (cw ch : R) (det : Detection) : list RedactionBox :=
  match usableEyes det with
  | Some (rightEye, leftEye) => [rotatedBar cw ch rightEye leftEye]
  | None =>
      match boundingBox det with
      | Some bb => [eyeStrip bb]
      | None => []
      end
  end.

(** The box array when the calculator has run over [ds] on the page [s]. *)
Definition compute (ds : list Detection) (s : State) : list RedactionBox :=
  boxes (calculateRedactionBoxes (set_detections ds s)).

(** Every address of the array is below the allocation pointer. *)
Definition allocated (s : State) : Prop :=
  Forall (fun a => (a < fresh s)%nat) (redactionBoxes s).

(** The arithmetic of the bounding-box fallback in the number format of
    the page itself, binary64: the fields [x], [y], [width] and [height]
    of the object it builds.  It serves to check a scenario of the real
    model against the rounding arithmetic. *)
#[local] Set Warnings "-inexact-float".
Definition eyeStrip64 (originX originY width height : float)
    : float * float * float * float :=
  (let eyeY := originY + height * 0.3 in
   let eyeWidth := width * 0.8 in
   let eyeHeight := height * 0.2 in
   (originX + width * 0.1, eyeY - eyeHeight / 2, eyeWidth, eyeHeight))%float.
#[local] Set Warnings "inexact-float".

(** ** Sample inputs *)

(** The bounding-box scenario of the design. *)
Definition faceOnly : Detection :=
  mkDetection (Some (mkBoundingBox 100 100 200 200)) None.

(** The keypoint scenario of the design: two level eyes, in fractions of
    a 1000 by 1000 canvas. *)
Definition levelEyes : Detection :=
  mkDetection None
    (Some [Some (mkKeypoint (Some 0.4) 0.4);
           Some (mkKeypoint (Some 0.6) 0.4)]).

(** A detection with a single keypoint and no bounding box. *)
Definition oneKeypoint : Detection :=
  mkDetection None (Some [Some (mkKeypoint (Some 0.5) 0.5)]).

(** A rotated box whose diagonal is 100, and a standard box 60 wide and
    80 high. *)
Definition smallBar : RedactionBox := mkBox 500 400 60 80 (rotated 1).

Definition wideStrip : RedactionBox := mkBox 5 5 60 80 standard.


(** A page with a loaded image on a [cw] by [ch] canvas shown at its own
    size, a ready detector, and no detections yet. *)
Definition loadedPage (cw ch : Z) : State :=
  mkState true cw ch (mkDOMRect 0 0 (IZR cw) (IZR ch))
    (mkSurface (Some 0%nat) []) "default" (Some 0%nat) []
    (fun _ => mkBox 0 0 0 0 standard) 0%nat [] None (0, 0)
    ("Image loaded"%string, false) true false.

(** The page after a first detection pass that found [faceOnly]. *)
Definition redactedPage : State :=
  detectClick (Resolved (Some [faceOnly])) (loadedPage 1000 1000).

(** A page that holds the single box [box], already painted, with that
    box being dragged by its anchor. *)
Definition draggingPage (cw ch : Z) (box : RedactionBox) : State :=
  mkState true cw ch (mkDOMRect 0 0 (IZR cw) (IZR ch))
    (mkSurface (Some 0%nat) [fillOf box]) "grabbing" (Some 0%nat) [faceOnly]
    (fun _ => box) 1%nat [0%nat] (Some 0%nat) (0, 0)
    ("Redacted 1 face"%string, false) false false.

(** A page with two overlapping standard boxes, the later one on top. *)
Definition overlapPage : State :=
  mkState true 100 100 (mkDOMRect 0 0 100 100)
    (mkSurface (Some 0%nat) []) "default" (Some 0%nat) [faceOnly; faceOnly]
    (fun a => if Nat.eqb a 0 then mkBox 0 0 10 10 standard
              else mkBox 5 5 10 10 standard)
    2%nat [0%nat; 1%nat] None (0, 0)
    ("Redacted 2 faces"%string, false) false false.

(** ** Further notions *)

(** A box has a non-negative width and height. *)
Definition nonNegativeSize (box : RedactionBox) : Prop :=
  0 <= box_width box /\ 0 <= box_height box.

(** The point lies in the closed rectangle of a bounding box. *)
Definition inBoundingBox (bb : BoundingBox) (px py : R) : Prop :=
  originX bb <= px <= originX bb + bb_width bb /\
  originY bb <= py <= originY bb + bb_height bb.

(** A page with two detections of which the first is being held from an
    earlier pass: the box at address 0 is held, the detections are new. *)
Definition heldBeforeRecompute : State :=
  set_detections [levelEyes; faceOnly] (draggingPage 1000 1000 smallBar).

(** A gesture-start event of either kind. *)
Inductive GestureStart : Type :=
| MouseDown (clientX clientY : R)
| TouchStart (touches : list (R * R)).

Definition gestureStart (g : GestureStart) (s : State) : State :=
  match g with
  | MouseDown clientX clientY => mousedown clientX clientY s
  | TouchStart touches => touchstart touches s
  end.

(** The canvas position that the handlers read off an event. *)
Definition startPointer (g : GestureStart) (s : State) : option (R * R) :=
  match g with
  | MouseDown clientX clientY => getPointerPos (Mouse clientX clientY) s
  | TouchStart touches => getPointerPos (Touches touches) s
  end.

Definition movePointer (g : GestureMove) (s : State) : option (R * R) :=
  match g with
  | MouseMove clientX clientY => getPointerPos (Mouse clientX clientY) s
  | TouchMove touches => getPointerPos (Touches touches) s
  end.

(** The events that end a drag. *)
Inductive GestureEnd : Type :=
| MouseUp
| MouseLeave
| TouchEnd
| TouchCancel.

Definition gestureEnd (g : GestureEnd) (s : State) : State :=
  match g with
  | MouseUp => mouseup s
  | MouseLeave => mouseleave s
  | TouchEnd => touchend s
  | TouchCancel => touchcancel s
  end.

(** The interval that the clamp block keeps the anchor in, on the
    horizontal and on the vertical axis, for a box on a canvas of extents
    [cw] and [ch]. *)
Definition anchorRangeX (cw : R) (box : RedactionBox) : R * R :=
  match box_type box with
  | rotated _ => (halfDiag box, cw - halfDiag box)
  | standard => (0, cw - box_width box)
  end.

Definition anchorRangeY (ch : R) (box : RedactionBox) : R * R :=
  match box_type box with
  | rotated _ => (halfDiag box, ch - halfDiag box)
  | standard => (0, ch - box_height box)
  end.

(** ** Reset, debug toggle and image load *)

(** [ctx.clearRect(0, 0, canvas.width, canvas.height)]. *)
Definition clearRect (s : State) : State :=
  set_pixels (mkSurface None []) s.

Definition resetState (s : State) : State :=
  let s1 := set_detections [] s in
  let s2 := set_redactionBoxes [] s1 in
  let s3 :=
    match originalImageData s2 with
    | Some img => putImageData img s2
    | None => clearRect s2
    end in
  let s4 := set_downloadDisabled true s3 in
  setStatus "Ready" false s4.

Definition set_debugMode (v : bool) (s : State) : State :=
  mkState (detector s) (canvas_width s) (canvas_height s) (clientRect s)
    (pixels s) (cursor s) (originalImageData s) (detections s) (store s)
    (fresh s) (redactionBoxes s) (draggedBox s) (dragOffset s) (status s)
    (downloadDisabled s) v.

(** The [keydown] handler of the document: the keys [d] and [D] toggle
    the debug outlines and repaint when there are boxes. *)
Definition keydown (key : string) (s : State) : State :=
  if String.eqb key "d" || String.eqb key "D" then
    let s1 := set_debugMode (negb (debugMode s)) s in
    if (0 <? List.length (redactionBoxes s1))%nat then redrawCanvas s1
    else s1
  else s.

(** [Math.round]: the nearest integer, halves upwards. *)
Definition round (v : R) : Z := Int_part (v + 1 / 2).

(** The canvas size chosen when an image of the natural size
    [naturalWidth] by [naturalHeight] has loaded: the image is scaled
    down, never up, so that its longer side is at most [maxDim]. *)
Definition fittedSize (naturalWidth naturalHeight : Z) : Z * Z :=
  let maxDim := 4096 in
  let scale :=
    Math.min 1
      (maxDim / Math.max (IZR naturalWidth) (IZR naturalHeight)) in
  let w := round (IZR naturalWidth * scale) in
  let h := round (IZR naturalHeight * scale) in
  (w, h).

(** The two buttons of the page that the state record does not hold. *)
Record Buttons : Type := mkButtons {
  detectDisabled : bool;
  resetDisabled : bool
}.

(** The [onload] handler of the image element, for an image of the given
    natural size; [img] is the pixel buffer read back from the canvas
    once the image is drawn on it, [rect] the rectangle at which the
    resized canvas is displayed.  When a side of the fitted size is 0
    the call of [getImageData] throws: the handler stops there, with the
    canvas resized (and so without a pixel) and everything else as it
    was. *)
Definition imageLoaded (naturalWidth naturalHeight : Z) (img : ImageData)
    (rect : DOMRect) (page : State * Buttons) : State * Buttons :=
  let s := fst page in
  let '(w, h) := fittedSize naturalWidth naturalHeight in
  if (w =? 0)%Z || (h =? 0)%Z then
    (mkState (detector s) w h rect
       (mkSurface None []) (cursor s) (originalImageData s) (detections s)
       (store s) (fresh s) (redactionBoxes s) (draggedBox s) (dragOffset s)
       (status s) (downloadDisabled s) (debugMode s),
     snd page)
  else
    let s1 :=
      mkState (detector s) w h rect
        (mkSurface (Some img) []) (cursor s) (Some img) [] (store s)
        (fresh s) [] (draggedBox s) (dragOffset s) (status s)
        true (debugMode s) in
    (setStatus "Image loaded" false s1, mkButtons false false).

(** ** The page as a whole *)

(** The events of the page.  A disabled button dispatches no click. *)
Inductive PageEvent : Type :=
| ImageLoad (naturalWidth naturalHeight : Z) (img : ImageData)
    (rect : DOMRect)
| DetectClicked (r : DetectResult)
| ResetClicked
| GestureStarted (g : GestureStart)
| GestureMoved (g : GestureMove)
| GestureEnded (g : GestureEnd)
| KeyPressed (key : string).

Definition dispatch (e : PageEvent) (page : State * Buttons)
    : State * Buttons :=
  match e with
  | ImageLoad naturalWidth naturalHeight img rect =>
      imageLoaded naturalWidth naturalHeight img rect page
  | DetectClicked r =>
      if detectDisabled (snd page) then page
      else (detectClick r (fst page), snd page)
  | ResetClicked =>
      if resetDisabled (snd page) then page
      else (resetState (fst page), snd page)
  | GestureStarted g => (gestureStart g (fst page), snd page)
  | GestureMoved g => (gestureMove g (fst page), snd page)
  | GestureEnded g => (gestureEnd g (fst page), snd page)
  | KeyPressed key => (keydown key (fst page), snd page)
  end.

(** The page after a sequence of events, oldest first. *)
Definition run (events : list PageEvent) (page : State * Buttons)
    : State * Buttons :=
  fold_left (fun p e => dispatch e p) events page.

(** The detect button is enabled only on a page that has saved a pixel
    buffer. *)
Definition bufferSaved (page : State * Buttons) : Prop :=
  detectDisabled (snd page) = false ->
  originalImageData (fst page) <> None.

(** ** Model loader *)

(** How one call of [fetch] settles: the promise rejects, or it resolves
    with a response that has an [ok] flag, a status and a body. *)
Inductive FetchResult : Type :=
| NetworkError
| Fetched (ok : bool) (status : nat) (body : list Byte.byte).

(** What the loader meets: the origin-private file system is unavailable
    ([None]), or it is there, with or without the model file; [fetches k]
    is how the [k]-th call of [fetch] settles; [persist] tells whether
    creating and writing the file succeeds.  A model file that is there
    can be read; what a failed write leaves in the file system is not
    part of the model. *)
Record LoaderEnv : Type := mkLoaderEnv {
  opfs : option (option (list Byte.byte));
  fetches : nat -> FetchResult;
  persist : bool
}.

(** What a run of the loader leaves: the buffer it returns ([None] when
    it throws), the number of [fetch] calls it made, and the bytes it
    wrote to the file system, if any. *)
Record LoaderRun : Type := mkLoaderRun {
  returned : option (list Byte.byte);
  fetchCalls : nat;
  written : option (list Byte.byte)
}.

(** The [catch] clause of the outer [try]: a plain fetch, the [k]-th of
    the run. *)
Definition fetchOnly (env : LoaderEnv) (k : nat) : LoaderRun :=
  match fetches env k with
  | Fetched true _ body => mkLoaderRun (Some body) (S k) None
  | _ => mkLoaderRun None (S k) None
  end.

Definition loadModelBufferOPFS (env : LoaderEnv) : LoaderRun :=
  match opfs env with
  | None => fetchOnly env 0
  | Some (Some file) => mkLoaderRun (Some file) 0 None
  | Some None =>
      match fetches env 0 with
      | Fetched true _ body =>
          if persist env then mkLoaderRun (Some body) 1 (Some body)
          else fetchOnly env 1
      | _ => fetchOnly env 1
      end
  end.

(** The environment of the next run, when nothing but the loader has
    touched the file system. *)
Definition afterRun (env : LoaderEnv) (run : LoaderRun)
    (fetches' : nat -> FetchResult) (persist' : bool) : LoaderEnv :=
  mkLoaderEnv
    (match written run, opfs env with
     | Some body, Some _ => Some (Some body)
     | _, o => o
     end)
    fetches' persist'.

(** ** Service worker *)

Module ServiceWorker.

Record Request : Type := mkRequest {
  method : string;
  url : string;
  mode : string
}.

Record Response : Type := mkResponse {
  status : nat;
  varyAny : bool;                (* carries the header [Vary: *] *)
  body : nat                     (* the payload, known by its identity *)
}.

(** A cache: at most one response per URL, a request matching an entry
    by its URL.  The cache storage: the named caches in the order of
    their creation. *)
Definition Cache : Type := list (string * Response).
Definition CacheStorage : Type := list (string * Cache).

(** The network: what [fetch] of a URL resolves with, [None] when it
    rejects. *)
Definition Network : Type := string -> option Response.

Definition VERSION : string := "v4-dynamic-wasm".
Definition CACHE : string := ("face-app-" ++ VERSION)%string.


(** [cache.match(url)]. *)
Fixpoint cacheMatch (u : string) (c : Cache) : option Response :=
  match c with
  | [] => None
  | (u', r) :: c' => if String.eqb u' u then Some r else cacheMatch u c'
  end.

(** [cache.put(url, response)]: replaces the entry of the URL. *)
Definition cachePut (u : string) (r : Response) (c : Cache) : Cache :=
  (u, r) :: filter (fun e => negb (String.eqb (fst e) u)) c.

(** [caches.match(url)]: the first cache, in creation order, that holds
    the URL answers. *)
Fixpoint storageMatch (u : string) (cs : CacheStorage) : option Response :=
  match cs with
  | [] => None
  | (_, c) :: cs' =>
      match cacheMatch u c with
      | Some r => Some r
      | None => storageMatch u cs'
      end
  end.

Definition hasCache (name : string) (cs : CacheStorage) : bool :=
  existsb (fun e => String.eqb (fst e) name) cs.

(** [caches.open(name)]: creates the cache when there is none. *)
Definition storageOpen (name : string) (cs : CacheStorage) : CacheStorage :=
  if hasCache name cs then cs else cs ++ [(name, [])].

(** Applying [f] to the cache called [name]. *)
Definition storageUpdate (name : string) (f : Cache -> Cache)
    (cs : CacheStorage) : CacheStorage :=
  map (fun e => if String.eqb (fst e) name then (fst e, f (snd e)) else e) cs.

(** [caches.delete(name)]. *)
Definition storageDelete (name : string) (cs : CacheStorage) : CacheStorage :=
  filter (fun e => negb (String.eqb (fst e) name)) cs.





(** The [activate] handler: delete every cache but the current one. *)
Definition activate (cs : CacheStorage) : CacheStorage :=
  fold_left (fun cs k => storageDelete k cs)
    (filter (fun k => negb (String.eqb k CACHE)) (map fst cs)) cs.

(** What the page gets for a request. *)
Inductive Served : Type :=
| NotIntercepted                  (* the handler does not respond *)
| Answer (r : Response)
| Undefined                       (* [respondWith] resolves with nothing *)
| Failure.                        (* [respondWith] rejects *)

(** The [fetch] handler.  [putOk] tells whether the [cache.put] of a
    fetched response succeeds (it does not, for one, on a response with
    [Vary: *]); its failure is swallowed. *)
Definition fetchEvent (net : Network) (putOk : bool) (req : Request)
    (cs : CacheStorage) : CacheStorage * Served :=
  if String.eqb (method req) "GET" then
    match storageMatch (url req) cs with
    | Some hit => (cs, Answer hit)
    | None =>
        match net (url req) with
        | Some resp =>
            if (status resp =? 200)%nat then
              let cs1 := storageOpen CACHE cs in
              ((if putOk
                then storageUpdate CACHE (cachePut (url req) resp) cs1
                else cs1),
               Answer resp)
            else (cs, Answer resp)
        | None =>
            if String.eqb (mode req) "navigate" then
              (cs,
               match storageMatch "/index.html" cs with
               | Some r => Answer r
               | None => Undefined
               end)
            else (cs, Failure)
        end
    end
  else (cs, NotIntercepted).


End ServiceWorker.

(** * Properties *)

(** ** Store and array bookkeeping *)

Lemma boxes_push box s :
  allocated s -> boxes (push box s) = boxes s ++ [box].
Proof.
  intros Hs. unfold boxes, push. cbn.
  rewrite map_app. cbn. rewrite Nat.eqb_refl. f_equal.
  apply map_ext_in. intros a Ha.
  unfold allocated in Hs. rewrite Forall_forall in Hs.
  specialize (Hs a Ha).
  destruct (Nat.eqb_spec a (fresh s)); [lia | reflexivity].
Qed.

Lemma allocated_push box s : allocated s -> allocated (push box s).
Proof.
  unfold allocated, push. cbn. intros Hs.
  apply Forall_app. split.
  - eapply Forall_impl; [| exact Hs]. cbn. intros; lia.
  - constructor; [lia | constructor].
Qed.

Lemma calculateStep_canvas s det :
  canvas_width (calculateStep s det) = canvas_width s /\
  canvas_height (calculateStep s det) = canvas_height s.
Proof.
  unfold calculateStep.
  destruct (usableEyes det) as [[re le]|]; [split; reflexivity |].
  destruct (boundingBox det); split; reflexivity.
Qed.

Lemma calculateStep_allocated s det :
  allocated s -> allocated (calculateStep s det).
Proof.
  intros Hs. unfold calculateStep.
  destruct (usableEyes det) as [[re le]|]; [now apply allocated_push |].
  destruct (boundingBox det); [now apply allocated_push | exact Hs].
Qed.

Lemma boxes_calculateStep s det :
  allocated s ->
  boxes (calculateStep s det)
  = boxes s ++ emitted (IZR (canvas_width s)) (IZR (canvas_height s)) det.
Proof.
  intros Hs. unfold calculateStep, emitted.
  destruct (usableEyes det) as [[re le]|]; [now apply boxes_push |].
  destruct (boundingBox det); [now apply boxes_push |].
  now rewrite app_nil_r.
Qed.

Lemma boxes_loop ds : forall s,
  allocated s ->
  boxes (fold_left calculateStep ds s)
  = boxes s ++ flat_map (emitted (IZR (canvas_width s))
                                 (IZR (canvas_height s))) ds.
Proof.
  induction ds as [|det ds IH]; intros s Hs; cbn.
  - now rewrite app_nil_r.
  - rewrite IH by now apply calculateStep_allocated.
    destruct (calculateStep_canvas s det) as [-> ->].
    rewrite boxes_calculateStep by exact Hs.
    now rewrite <- app_assoc.
Qed.

(** The calculator, seen as a function from detections to boxes. *)
Lemma compute_flat_map ds s :
  compute ds s
  = flat_map (emitted (IZR (canvas_width s)) (IZR (canvas_height s))) ds.
Proof.
  unfold compute, calculateRedactionBoxes.
  rewrite boxes_loop by constructor. reflexivity.
Qed.

Lemma compute_app ds1 ds2 s :
  compute (ds1 ++ ds2) s = compute ds1 s ++ compute ds2 s.
Proof. rewrite !compute_flat_map. apply flat_map_app. Qed.

Lemma compute_cons det ds s :
  compute (det :: ds) s
  = emitted (IZR (canvas_width s)) (IZR (canvas_height s)) det
    ++ compute ds s.
Proof. rewrite !compute_flat_map. reflexivity. Qed.

(** [usableEyes] succeeds exactly on a usable keypoint pair. *)
Lemma usableEyes_pair det rightEye leftEye rx lx :
  usablePair det rightEye leftEye rx lx ->
  usableEyes det = Some ((rx, kp_y rightEye), (lx, kp_y leftEye)).
Proof.
  intros (kps & Hk & Hlen & H0 & H1 & Hrx & Hlx).
  unfold usableEyes. rewrite Hk.
  apply Nat.leb_le in Hlen. rewrite Hlen, H0, H1, Hrx, Hlx. reflexivity.
Qed.

Lemma usableEyes_none det :
  ~ hasUsablePair det <-> usableEyes det = None.
Proof.
  split.
  - intros Hno. unfold usableEyes.
    destruct (keypoints det) as [kps|] eqn:Hk; [| reflexivity].
    destruct (2 <=? List.length kps)%nat eqn:Hlen; [| reflexivity].
    destruct (nth_error kps 0) as [[re|]|] eqn:H0; try reflexivity;
      destruct (nth_error kps 1) as [[le|]|] eqn:H1; try reflexivity.
    destruct (kp_x re) as [rx|] eqn:Hrx; [| reflexivity].
    destruct (kp_x le) as [lx|] eqn:Hlx; [| reflexivity].
    exfalso. apply Hno. exists re, le, rx, lx, kps.
    apply Nat.leb_le in Hlen. repeat split; assumption.
  - intros Hnone (re & le & rx & lx & Hp).
    rewrite (usableEyes_pair _ _ _ _ _ Hp) in Hnone. discriminate.
Qed.

(** ** Box calculator *)

Lemma normalize_inline v extent :
  (if Rlt_dec v 2 then v * extent else v) = normalizeAxis v extent.
Proof. reflexivity. Qed.

(** What the keypoint branch builds, in the terms of the design. *)
Lemma rotatedBar_geometry cw ch rx ry lx ly :
  let rex := normalizeAxis rx cw in
  let rey := normalizeAxis ry ch in
  let lex := normalizeAxis lx cw in
  let ley := normalizeAxis ly ch in
  let dx := lex - rex in
  let dy := ley - rey in
  rotatedBar cw ch (rx, ry) (lx, ly)
  = mkBox ((rex + lex) / 2) ((rey + ley) / 2)
      (2.5 * Math.hypot dx dy) (0.5 * Math.hypot dx dy)
      (rotated (Math.atan2 dy dx)).
Proof.
  cbv zeta. unfold rotatedBar. cbn [fst snd]. rewrite !normalize_inline.
  f_equal; apply Rmult_comm.
Qed.

(** What the fallback builds, in the terms of the design. *)
Lemma eyeStrip_geometry bb :
  eyeStrip bb
  = mkBox (originX bb + 0.1 * bb_width bb)
      ((originY bb + 0.3 * bb_height bb) - (0.2 * bb_height bb) / 2)
      (0.8 * bb_width bb) (0.2 * bb_height bb) standard.
Proof. unfold eyeStrip. f_equal; lra. Qed.

Lemma emitted_pair cw ch det rightEye leftEye rx lx :
  usablePair det rightEye leftEye rx lx ->
  emitted cw ch det
  = [rotatedBar cw ch (rx, kp_y rightEye) (lx, kp_y leftEye)].
Proof.
  intros Hp. unfold emitted. now rewrite (usableEyes_pair _ _ _ _ _ Hp).
Qed.

Lemma emitted_fallback cw ch det bb :
  ~ hasUsablePair det -> boundingBox det = Some bb ->
  emitted cw ch det = [eyeStrip bb].
Proof.
  intros Hno Hbb. apply usableEyes_none in Hno.
  unfold emitted. now rewrite Hno, Hbb.
Qed.

Lemma emitted_dropped cw ch det :
  emitted cw ch det = [] <-> ~ hasUsablePair det /\ boundingBox det = None.
Proof.
  rewrite usableEyes_none. unfold emitted.
  destruct (usableEyes det) as [[re le]|]; [split; [discriminate | intros [? _]; discriminate] |].
  destruct (boundingBox det); split; try discriminate; auto.
  intros [_ ?]; discriminate.
Qed.

Lemma emitted_at_most_one cw ch det :
  (List.length (emitted cw ch det) <= 1)%nat.
Proof.
  unfold emitted. destruct (usableEyes det) as [[re le]|]; cbn; [lia |].
  destruct (boundingBox det); cbn; lia.
Qed.

Lemma compute_middle pre det post s :
  compute (pre ++ det :: post) s
  = compute pre s
    ++ emitted (IZR (canvas_width s)) (IZR (canvas_height s)) det
    ++ compute post s.
Proof. now rewrite compute_app, compute_cons. Qed.

(** C1.  A detection with at least two keypoints whose first two carry
    an [x] yields, at its place in the output, exactly one rotated box:
    centred at the midpoint of the two normalised eye points, turned by
    [atan2(dy, dx)], [2.5 * hypot(dx, dy)] wide and
    [0.5 * hypot(dx, dy)] high.  Nothing else is emitted for it, so the
    bounding-box fallback is not applied as well. *)
Theorem keypoint_pair_gives_rotated_bar
    (s : State) (pre post : list Detection) (det : Detection)
    (rightEye leftEye : Keypoint) (rx lx : R) :
  usablePair det rightEye leftEye rx lx ->
  let rex := normalizeAxis rx (IZR (canvas_width s)) in
  let rey := normalizeAxis (kp_y rightEye) (IZR (canvas_height s)) in
  let lex := normalizeAxis lx (IZR (canvas_width s)) in
  let ley := normalizeAxis (kp_y leftEye) (IZR (canvas_height s)) in
  let dx := lex - rex in
  let dy := ley - rey in
  compute (pre ++ det :: post) s
  = compute pre s
    ++ [mkBox ((rex + lex) / 2) ((rey + ley) / 2)
          (2.5 * Math.hypot dx dy) (0.5 * Math.hypot dx dy)
          (rotated (Math.atan2 dy dx))]
    ++ compute post s.
Proof.
  intros Hp. cbv zeta.
  rewrite compute_middle, (emitted_pair _ _ _ _ _ _ _ Hp).
  now rewrite rotatedBar_geometry.
Qed.

(** C2.  A detection without a usable keypoint pair but with a bounding
    box yields, at its place in the output, exactly one standard box: the
    strip of 80% of the face width and 20% of the face height, inset by
    10% of the width and centred vertically at [originY + 0.3 * height]. *)
Theorem bounding_box_gives_eye_strip
    (s : State) (pre post : list Detection) (det : Detection)
    (bb : BoundingBox) :
  ~ hasUsablePair det ->
  boundingBox det = Some bb ->
  compute (pre ++ det :: post) s
  = compute pre s
    ++ [mkBox (originX bb + 0.1 * bb_width bb)
          ((originY bb + 0.3 * bb_height bb) - (0.2 * bb_height bb) / 2)
          (0.8 * bb_width bb) (0.2 * bb_height bb) standard]
    ++ compute post s.
Proof.
  intros Hno Hbb.
  rewrite compute_middle, (emitted_fallback _ _ _ _ Hno Hbb).
  now rewrite eyeStrip_geometry.
Qed.

(** C6, as amended.  The calculator never returns more boxes than there
    are detections; each detection contributes, at its place, the boxes
    of [emitted], which are none exactly when the detection has neither a
    usable keypoint pair nor a bounding box, and one box otherwise. *)
Theorem coverage_of_detections (s : State) :
  (forall ds, (List.length (compute ds s) <= List.length ds)%nat) /\
  (forall pre det post,
     let here :=
       emitted (IZR (canvas_width s)) (IZR (canvas_height s)) det in
     compute (pre ++ det :: post) s = compute pre s ++ here ++ compute post s
     /\ (here = [] <-> ~ hasUsablePair det /\ boundingBox det = None)
     /\ (here <> [] -> List.length here = 1%nat)).
Proof.
  split.
  - intros ds. induction ds as [|det ds IH]; [cbn; lia |].
    rewrite compute_cons, length_app. cbn [List.length].
    pose proof (emitted_at_most_one (IZR (canvas_width s))
                  (IZR (canvas_height s)) det). lia.
  - intros pre det post here. split; [apply compute_middle |].
    split; [apply emitted_dropped |].
    intros Hne. subst here.
    pose proof (emitted_at_most_one (IZR (canvas_width s))
                  (IZR (canvas_height s)) det) as Hle.
    destruct (emitted _ _ det) as [|b [|b' l]]; cbn in *;
      [congruence | reflexivity | lia].
Qed.

(** C6, as stated, fails: a detection that has keypoints, but fewer than
    two, and no bounding box is dropped. *)
Lemma keypoints_without_box_dropped :
  keypoints oneKeypoint <> None /\
  compute [oneKeypoint] (loadedPage 1000 1000) = [].
Proof. split; [discriminate | reflexivity]. Qed.

(** C7, as amended.  For the single detection with only the bounding box
    [{originX: 100, originY: 100, width: 200, height: 200}] the
    calculator returns exactly one standard box, at [x = 120], [y = 140],
    [160] wide and [40] high. *)
Theorem face_only_scenario (s : State) :
  compute [faceOnly] s = [mkBox 120 140 160 40 standard].
Proof.
  rewrite compute_cons. cbn. unfold eyeStrip. cbn.
  f_equal. f_equal; lra.
Qed.

(** The same scenario in binary64 arithmetic: no rounding shows. *)
Example face_only_scenario_binary64 :
  eyeStrip64 100 100 200 200 = (120, 140, 160, 40)%float.
Proof. vm_compute. reflexivity. Qed.

(** C7, as stated, fails: the box is not at [y = 190]. *)
Lemma face_only_scenario_not_190 :
  compute [faceOnly] (loadedPage 1000 1000)
  <> [mkBox 120 190 160 40 standard].
Proof.
  rewrite compute_cons. cbn. unfold eyeStrip. cbn.
  intros Heq. injection Heq as _ Hy _ _. lra.
Qed.

Lemma normalizeAxis_fraction v extent :
  v < 2 -> normalizeAxis v extent = v * extent.
Proof. intros Hv. unfold normalizeAxis. destruct (Rlt_dec v 2); [reflexivity | contradiction]. Qed.

Lemma hypot_horizontal d : 0 <= d -> Math.hypot d 0 = d.
Proof.
  intros Hd. unfold Math.hypot.
  replace (d * d + 0 * 0) with (d * d) by ring.
  now apply sqrt_square.
Qed.

Lemma atan2_horizontal d : 0 < d -> Math.atan2 0 d = 0.
Proof.
  intros Hd. unfold Math.atan2.
  destruct (Rlt_dec 0 d); [| contradiction].
  replace (0 / d) with 0 by (field; lra). apply atan_0.
Qed.

Lemma compute_nil s : compute [] s = [].
Proof. reflexivity. Qed.

Lemma levelEyes_usable :
  usablePair levelEyes (mkKeypoint (Some 0.4) 0.4)
    (mkKeypoint (Some 0.6) 0.4) 0.4 0.6.
Proof.
  exists (match keypoints levelEyes with Some kps => kps | None => [] end).
  repeat split; cbn; lia.
Qed.

Lemma keypoint_pair_gives_rotated_bar_witness :
  usablePair levelEyes (mkKeypoint (Some 0.4) 0.4)
    (mkKeypoint (Some 0.6) 0.4) 0.4 0.6 /\
  compute [levelEyes] (loadedPage 1000 1000)
  = [mkBox 500 400 500 100 (rotated 0)].
Proof.
  split; [exact levelEyes_usable |].
  pose proof (keypoint_pair_gives_rotated_bar (loadedPage 1000 1000) [] []
                levelEyes _ _ _ _ levelEyes_usable) as E.
  cbv zeta in E. cbn [app kp_y canvas_width canvas_height loadedPage] in E.
  rewrite !normalizeAxis_fraction in E by lra.
  replace (0.6 * 1000 - 0.4 * 1000) with 200 in E by lra.
  replace (0.4 * 1000 - 0.4 * 1000) with 0 in E by lra.
  rewrite hypot_horizontal, atan2_horizontal in E by lra.
  rewrite !compute_nil in E. rewrite E. cbn [app].
  f_equal. f_equal; lra.
Defined.

Lemma bounding_box_gives_eye_strip_witness :
  ~ hasUsablePair faceOnly /\
  boundingBox faceOnly = Some (mkBoundingBox 100 100 200 200) /\
  compute [faceOnly] (loadedPage 1000 1000)
  = [mkBox (100 + 0.1 * 200) ((100 + 0.3 * 200) - (0.2 * 200) / 2)
       (0.8 * 200) (0.2 * 200) standard].
Proof.
  assert (Hno : ~ hasUsablePair faceOnly).
  { intros (re & le & rx & lx & kps & Hk & _). discriminate Hk. }
  split; [exact Hno |]. split; [reflexivity |].
  exact (bounding_box_gives_eye_strip (loadedPage 1000 1000) [] [] faceOnly
           (mkBoundingBox 100 100 200 200) Hno eq_refl).
Defined.

(** ** Hit tester *)

Lemma Rleb_true a b : Rleb a b = true <-> a <= b.
Proof.
  unfold Rleb. destruct (Rle_dec a b); split; intros; try assumption;
    try reflexivity; try discriminate; contradiction.
Qed.

(** The inverse rotation of the hit test keeps the distance to the
    centre. *)
Lemma rotation_keeps_norm dx dy t :
  (dx * cos t - dy * sin t) * (dx * cos t - dy * sin t)
  + (dx * sin t + dy * cos t) * (dx * sin t + dy * cos t)
  = dx * dx + dy * dy.
Proof.
  pose proof (sin2_cos2 t) as H. unfold Rsqr in H.
  transitivity ((dx * dx + dy * dy) * (sin t * sin t + cos t * cos t));
    [ring | rewrite H; ring].
Qed.

Lemma abs_le_square a b : Rabs a <= b -> a * a <= b * b.
Proof.
  intros H. pose proof (Rabs_pos a).
  destruct (Rabs_def2 a (b + 1)) as [? ?]; [lra |].
  assert (- b <= a <= b) as [? ?].
  { unfold Rabs in H. destruct (Rcase_abs a); lra. }
  nra.
Qed.

(** A point accepted by the rotated test is within half a diagonal of the
    centre. *)
Lemma rotated_hit_within_halfDiag x y box angle :
  box_type box = rotated angle ->
  hitTest x y box = true ->
  Math.hypot (x - box_x box) (y - box_y box) <= halfDiag box.
Proof.
  intros Ht Hhit. unfold hitTest in Hhit. rewrite Ht in Hhit.
  apply andb_true_iff in Hhit as [Hx Hy].
  apply Rleb_true, abs_le_square in Hx.
  apply Rleb_true, abs_le_square in Hy.
  unfold Math.cos, Math.sin in *.
  pose proof (rotation_keeps_norm (x - box_x box) (y - box_y box) (- angle))
    as Hn.
  unfold Math.hypot, halfDiag.
  set (dx := x - box_x box) in *. set (dy := y - box_y box) in *.
  set (w := box_width box) in *. set (h := box_height box) in *.
  pose proof (Rle_0_sqr dx) as Hdx. pose proof (Rle_0_sqr dy) as Hdy.
  pose proof (Rle_0_sqr w) as Hw. pose proof (Rle_0_sqr h) as Hh.
  unfold Rsqr in Hdx, Hdy, Hw, Hh.
  set (d2 := dx * dx + dy * dy) in *.
  set (w2 := w * w + h * h).
  assert (Hd2 : 0 <= d2) by (subst d2; lra).
  assert (Hw2 : 0 <= w2) by (subst w2; lra).
  assert (Hle : d2 <= w2 / 4) by (subst w2; lra).
  pose proof (sqrt_pos d2). pose proof (sqrt_pos w2).
  pose proof (sqrt_sqrt d2 Hd2). pose proof (sqrt_sqrt w2 Hw2).
  nra.
Qed.

(** C3.  For a rotated box of non-negative size, whatever its angle, the
    hit test accepts the centre of the box and rejects every point whose
    distance to the centre exceeds half the diagonal. *)
Theorem rotated_hit_test (cx cy w h theta : R) :
  0 <= w -> 0 <= h ->
  let box := mkBox cx cy w h (rotated theta) in
  hitTest cx cy box = true /\
  (forall px py,
     halfDiag box < Math.hypot (px - cx) (py - cy) ->
     hitTest px py box = false).
Proof.
  intros Hw Hh box. split.
  - unfold hitTest, box. cbn.
    replace (cx - cx) with 0 by ring. replace (cy - cy) with 0 by ring.
    rewrite !Rmult_0_l, Rminus_0_r, Rplus_0_r.
    unfold Math.abs. rewrite Rabs_R0.
    apply andb_true_iff. split; apply Rleb_true; lra.
  - intros px py Hfar.
    destruct (hitTest px py box) eqn:Hhit; [| reflexivity].
    pose proof (rotated_hit_within_halfDiag px py box theta eq_refl Hhit)
      as Hnear.
    cbn in Hnear. lra.
Qed.

Lemma sqrt_of_square_sum a b c :
  0 <= c -> a * a + b * b = c * c -> sqrt (a * a + b * b) = c.
Proof. intros Hc ->. now apply sqrt_square. Qed.

Lemma rotated_hit_test_witness :
  let box := mkBox 10 10 6 8 (rotated 1) in
  0 <= 6 /\ 0 <= 8 /\
  hitTest 10 10 box = true /\
  halfDiag box < Math.hypot (15 - 10) (22 - 10) /\
  hitTest 15 22 box = false.
Proof.
  intros box.
  assert (Hw : 0 <= 6) by lra. assert (Hh : 0 <= 8) by lra.
  assert (Hfar : halfDiag box < Math.hypot (15 - 10) (22 - 10)).
  { unfold halfDiag, Math.hypot, box. cbn.
    rewrite (sqrt_of_square_sum 6 8 10) by (lra || ring).
    rewrite (sqrt_of_square_sum (15 - 10) (22 - 10) 13) by (lra || ring).
    lra. }
  destruct (rotated_hit_test 10 10 6 8 1 Hw Hh) as [Hc Hrej].
  repeat split; [exact Hw | exact Hh | exact Hc | exact Hfar |].
  exact (Hrej 15 22 Hfar).
Defined.

(** The loop of [findBoxAt] from index [n - 1] down. *)
Lemma findBoxFrom_some x y s : forall n a,
  findBoxFrom x y s n = Some a <->
  exists i, (i < n)%nat /\
    nth_error (redactionBoxes s) i = Some a /\
    hitTest x y (store s a) = true /\
    forall j b, (i < j < n)%nat ->
      nth_error (redactionBoxes s) j = Some b ->
      hitTest x y (store s b) = false.
Proof.
  induction n as [|n IH]; intros a; cbn.
  - split; [discriminate | intros (i & Hi & _); lia].
  - destruct (nth_error (redactionBoxes s) n) as [c|] eqn:Hn.
    + destruct (hitTest x y (store s c)) eqn:Hc.
      * split.
        -- intros [= <-]. exists n. repeat split; try assumption; try lia.
        -- intros (i & Hi & Hnth & Hhit & Hlast).
           destruct (Nat.eq_dec i n) as [-> | Hne]; [congruence |].
           rewrite (Hlast n c) in Hc; [discriminate | lia | exact Hn].
      * rewrite IH. split.
        -- intros (i & Hi & Hnth & Hhit & Hlast).
           exists i. repeat split; try assumption; try lia.
           intros j b Hj Hb.
           destruct (Nat.eq_dec j n) as [-> | Hne]; [congruence |].
           apply (Hlast j b); [lia | exact Hb].
        -- intros (i & Hi & Hnth & Hhit & Hlast).
           destruct (Nat.eq_dec i n) as [-> | Hne]; [congruence |].
           exists i. repeat split; try assumption; try lia.
           intros j b Hj. apply Hlast. lia.
    + rewrite IH. split.
      * intros (i & Hi & Hnth & Hhit & Hlast).
        exists i. repeat split; try assumption; try lia.
        intros j b Hj Hb.
        destruct (Nat.eq_dec j n) as [-> | Hne]; [congruence |].
        apply (Hlast j b); [lia | exact Hb].
      * intros (i & Hi & Hnth & Hhit & Hlast).
        destruct (Nat.eq_dec i n) as [-> | Hne]; [congruence |].
        exists i. repeat split; try assumption; try lia.
        intros j b Hj. apply Hlast. lia.
Qed.

Lemma findBoxFrom_none x y s : forall n,
  findBoxFrom x y s n = None <->
  forall i b, (i < n)%nat ->
    nth_error (redactionBoxes s) i = Some b ->
    hitTest x y (store s b) = false.
Proof.
  induction n as [|n IH]; cbn.
  - split; [intros _ i b Hi; lia | reflexivity].
  - destruct (nth_error (redactionBoxes s) n) as [c|] eqn:Hn.
    + destruct (hitTest x y (store s c)) eqn:Hc.
      * split; [discriminate |].
        intros Hall. rewrite (Hall n c) in Hc; [discriminate | lia | exact Hn].
      * rewrite IH. split.
        -- intros Hall i b Hi Hb.
           destruct (Nat.eq_dec i n) as [-> | Hne]; [congruence |].
           apply (Hall i b); [lia | exact Hb].
        -- intros Hall i b Hi. apply Hall. lia.
    + rewrite IH. split.
      * intros Hall i b Hi Hb.
        destruct (Nat.eq_dec i n) as [-> | Hne]; [congruence |].
        apply (Hall i b); [lia | exact Hb].
      * intros Hall i b Hi. apply Hall. lia.
Qed.

(** C4.  [findBoxAt] returns the box at the highest index of the array
    whose containment test accepts the point, and returns [null] exactly
    when no box of the array contains the point. *)
Theorem findBoxAt_topmost (x y : R) (s : State) :
  (forall a,
     findBoxAt x y s = Some a <->
     exists i,
       nth_error (redactionBoxes s) i = Some a /\
       hitTest x y (store s a) = true /\
       forall j b, (i < j)%nat ->
         nth_error (redactionBoxes s) j = Some b ->
         hitTest x y (store s b) = false) /\
  (findBoxAt x y s = None <->
   forall b, In b (redactionBoxes s) -> hitTest x y (store s b) = false).
Proof.
  unfold findBoxAt. split.
  - intros a. rewrite findBoxFrom_some. split.
    + intros (i & Hi & Hnth & Hhit & Hlast).
      exists i. repeat split; try assumption.
      intros j b Hj Hb. apply (Hlast j b); [| exact Hb].
      split; [exact Hj |]. apply nth_error_Some. congruence.
    + intros (i & Hnth & Hhit & Hlast).
      exists i. repeat split; try assumption.
      * apply nth_error_Some. congruence.
      * intros j b Hj. apply Hlast. lia.
  - rewrite findBoxFrom_none. split.
    + intros Hall b Hin.
      destruct (In_nth_error _ _ Hin) as [i Hi].
      apply (Hall i b); [| exact Hi].
      apply nth_error_Some. congruence.
    + intros Hall i b _ Hb. apply Hall. eapply nth_error_In; eauto.
Qed.

Ltac decide_Rleb :=
  repeat match goal with
         | |- context [Rleb ?a ?b] =>
             first
               [ rewrite (proj2 (Rleb_true a b)) by lra
               | let H := fresh in
                 destruct (Rleb a b) eqn:H;
                 [apply Rleb_true in H; lra |] ]
         end.

(** Where two boxes overlap the later one is found; elsewhere the one
    under the point, or none. *)
Example findBoxAt_overlap :
  findBoxAt 7 7 overlapPage = Some 1%nat /\
  findBoxAt 2 2 overlapPage = Some 0%nat /\
  findBoxAt 20 20 overlapPage = None.
Proof.
  unfold findBoxAt, overlapPage.
  cbn [findBoxFrom redactionBoxes store List.length nth_error Nat.eqb].
  unfold hitTest. cbn [box_type box_x box_y box_width box_height].
  repeat split; decide_Rleb; reflexivity.
Qed.

(** ** Drag controller *)

Lemma clamp_between lo hi v : lo <= hi -> lo <= clamp lo hi v <= hi.
Proof.
  intros H. unfold clamp, Math.max, Math.min, Rmax, Rmin.
  destruct (Rle_dec hi v); destruct (Rle_dec lo _); lra.
Qed.

(** An empty interval is resolved in favour of the lower bound. *)
Lemma clamp_empty lo hi v : hi < lo -> clamp lo hi v = lo.
Proof.
  intros H. unfold clamp, Math.max, Math.min, Rmax, Rmin.
  destruct (Rle_dec hi v); destruct (Rle_dec lo _); lra.
Qed.

Lemma store_mutate a f s : store (mutate a f s) a = f (store s a).
Proof. unfold mutate, update. cbn. now rewrite Nat.eqb_refl. Qed.

Lemma mutate_frame a f s :
  canvas_width (mutate a f s) = canvas_width s /\
  canvas_height (mutate a f s) = canvas_height s /\
  draggedBox (mutate a f s) = draggedBox s /\
  redactionBoxes (mutate a f s) = redactionBoxes s /\
  dragOffset (mutate a f s) = dragOffset s.
Proof. repeat split. Qed.

Lemma redrawCanvas_frame s :
  store (redrawCanvas s) = store s /\
  canvas_width (redrawCanvas s) = canvas_width s /\
  canvas_height (redrawCanvas s) = canvas_height s /\
  draggedBox (redrawCanvas s) = draggedBox s /\
  redactionBoxes (redrawCanvas s) = redactionBoxes s.
Proof.
  unfold redrawCanvas. destruct (originalImageData s); repeat split.
Qed.

Lemma clampDragged_frame a s :
  canvas_width (clampDragged a s) = canvas_width s /\
  canvas_height (clampDragged a s) = canvas_height s /\
  draggedBox (clampDragged a s) = draggedBox s /\
  redactionBoxes (clampDragged a s) = redactionBoxes s.
Proof. unfold clampDragged. destruct (box_type (store s a)); repeat split. Qed.

(** The clamp block on a box with its anchor at [(vx, vy)]. *)
Lemma clampDragged_store a s :
  store (clampDragged a s) a
  = match box_type (store s a) with
    | rotated theta =>
        mkBox
          (clamp (halfDiag (store s a))
             (IZR (canvas_width s) - halfDiag (store s a))
             (box_x (store s a)))
          (clamp (halfDiag (store s a))
             (IZR (canvas_height s) - halfDiag (store s a))
             (box_y (store s a)))
          (box_width (store s a)) (box_height (store s a)) (rotated theta)
    | standard =>
        mkBox
          (clamp 0 (IZR (canvas_width s) - box_width (store s a))
             (box_x (store s a)))
          (clamp 0 (IZR (canvas_height s) - box_height (store s a))
             (box_y (store s a)))
          (box_width (store s a)) (box_height (store s a)) standard
    end.
Proof.
  unfold clampDragged.
  destruct (box_type (store s a)) as [theta|] eqn:Ht; cbv zeta;
    rewrite !store_mutate; unfold set_box_x, set_box_y;
    cbn [box_x box_y box_width box_height box_type];
    rewrite Ht; reflexivity.
Qed.

(** What a move does to the held object, and what it leaves alone. *)
Lemma dragTo_store pos a s :
  store (dragTo pos a s) a
  = match box_type (store s a) with
    | rotated theta =>
        mkBox
          (clamp (halfDiag (store s a))
             (IZR (canvas_width s) - halfDiag (store s a))
             (fst pos - fst (dragOffset s)))
          (clamp (halfDiag (store s a))
             (IZR (canvas_height s) - halfDiag (store s a))
             (snd pos - snd (dragOffset s)))
          (box_width (store s a)) (box_height (store s a)) (rotated theta)
    | standard =>
        mkBox
          (clamp 0 (IZR (canvas_width s) - box_width (store s a))
             (fst pos - fst (dragOffset s)))
          (clamp 0 (IZR (canvas_height s) - box_height (store s a))
             (snd pos - snd (dragOffset s)))
          (box_width (store s a)) (box_height (store s a)) standard
    end.
Proof.
  unfold dragTo. cbv zeta.
  destruct (redrawCanvas_frame
              (clampDragged a
                 (mutate a (set_box_y (snd pos - snd (dragOffset
                    (mutate a (set_box_x (fst pos - fst (dragOffset s))) s))))
                    (mutate a (set_box_x (fst pos - fst (dragOffset s))) s))))
    as [-> _].
  rewrite clampDragged_store, !store_mutate.
  unfold set_box_x, set_box_y.
  cbn [box_x box_y box_width box_height box_type].
  reflexivity.
Qed.

Lemma dragTo_frame pos a s :
  canvas_width (dragTo pos a s) = canvas_width s /\
  canvas_height (dragTo pos a s) = canvas_height s /\
  draggedBox (dragTo pos a s) = draggedBox s /\
  redactionBoxes (dragTo pos a s) = redactionBoxes s.
Proof.
  unfold dragTo. cbv zeta.
  match goal with |- context [redrawCanvas ?t] =>
    destruct (redrawCanvas_frame t) as (_ & -> & -> & -> & ->);
    destruct (clampDragged_frame a
                (mutate a (set_box_y (snd pos - snd (dragOffset
                   (mutate a (set_box_x (fst pos - fst (dragOffset s))) s))))
                   (mutate a (set_box_x (fst pos - fst (dragOffset s))) s)))
      as (-> & -> & -> & ->)
  end.
  repeat split.
Qed.

(** A point between the two ends of a side of length [w] centred at 0. *)
Lemma side_square w u :
  Rmin (- w / 2) (- w / 2 + w) <= u <= Rmax (- w / 2) (- w / 2 + w) ->
  u * u <= w * w / 4.
Proof.
  unfold Rmin, Rmax. destruct (Rle_dec (- w / 2) (- w / 2 + w)); intros [? ?]; nra.
Qed.

Lemma square_le_bound d r : 0 <= r -> d * d <= r * r -> - r <= d <= r.
Proof. intros Hr Hd. split; nra. Qed.

(** A rectangle whose centre keeps half a diagonal away from the edges
    of the canvas is painted inside the canvas, whatever its angle. *)
Lemma centred_rectangle_inside s cx cy w h theta :
  let hd := sqrt (w * w + h * h) / 2 in
  hd <= cx <= IZR (canvas_width s) - hd ->
  hd <= cy <= IZR (canvas_height s) - hd ->
  insideAt s (mkBox cx cy w h standard) theta.
Proof.
  intros hd Hx Hy px py (u & v & Hu & Hv & Hpx & Hpy).
  cbn in Hu, Hv, Hpx, Hpy.
  apply side_square in Hu. apply side_square in Hv.
  pose proof (rotation_keeps_norm u v theta) as Hn.
  set (ex := u * cos theta - v * sin theta) in *.
  set (ey := u * sin theta + v * cos theta) in *.
  assert (Hw2 : 0 <= w * w + h * h) by nra.
  pose proof (sqrt_pos (w * w + h * h)) as Hs0.
  pose proof (sqrt_sqrt _ Hw2) as Hss.
  assert (Hhd : 0 <= hd) by (subst hd; lra).
  assert (Hhd2 : hd * hd = (w * w + h * h) / 4) by (subst hd; nra).
  assert (Hex : - hd <= ex <= hd) by (apply square_le_bound; nra).
  assert (Hey : - hd <= ey <= hd) by (apply square_le_bound; nra).
  unfold onCanvas. lra.
Qed.

Lemma insideAt_canvas s s' box theta :
  canvas_width s' = canvas_width s ->
  canvas_height s' = canvas_height s ->
  insideAt s box theta -> insideAt s' box theta.
Proof.
  intros Hw Hh Hin px py Hc. specialize (Hin px py Hc).
  unfold onCanvas in *. now rewrite Hw, Hh.
Qed.

Lemma isRotated_type box :
  isRotated box = true -> exists theta, box_type box = rotated theta.
Proof.
  unfold isRotated. destruct (box_type box) as [theta|];
    [exists theta; reflexivity | discriminate].
Qed.

(** A move that the handler acts on, with a box held, is a [dragTo]. *)
Lemma gestureMove_acts g s a :
  draggedBox s = Some a -> acts g s ->
  exists pos, gestureMove g s = dragTo pos a s.
Proof.
  intros Hd Hacts. destruct g as [cx cy | touches]; cbn in *.
  - unfold mousemove. destruct (redactionBoxes s); [contradiction |].
    cbn. rewrite Hd. eexists. reflexivity.
  - unfold touchmove. rewrite Hd, Hacts. cbn.
    destruct touches as [|[tx ty] rest]; [discriminate |].
    cbn. eexists. reflexivity.
Qed.

(** Any move, with a box held, is a [dragTo] or does nothing. *)
Lemma gestureMove_held g s a :
  draggedBox s = Some a ->
  gestureMove g s = s \/ exists pos, gestureMove g s = dragTo pos a s.
Proof.
  intros Hd. destruct g as [cx cy | touches]; cbn.
  - unfold mousemove. destruct (redactionBoxes s); [now left |].
    cbn. rewrite Hd. right. eexists. reflexivity.
  - unfold touchmove. rewrite Hd.
    destruct (List.length touches =? 1)%nat; [| now left].
    destruct touches as [|[tx ty] rest]; [now left |].
    cbn. right. eexists. reflexivity.
Qed.

Lemma dragTo_rotated_inside pos a s :
  isRotated (store s a) = true ->
  2 * halfDiag (store s a) <= IZR (canvas_width s) ->
  2 * halfDiag (store s a) <= IZR (canvas_height s) ->
  forall theta, insideAt (dragTo pos a s) (store (dragTo pos a s) a) theta.
Proof.
  intros Hrot Hw Hh theta.
  destruct (isRotated_type _ Hrot) as [t0 Ht].
  rewrite dragTo_store, Ht.
  destruct (dragTo_frame pos a s) as (Hcw & Hch & _ & _).
  pose proof (clamp_between (halfDiag (store s a))
                (IZR (canvas_width s) - halfDiag (store s a))
                (fst pos - fst (dragOffset s)) ltac:(lra)) as Hx.
  pose proof (clamp_between (halfDiag (store s a))
                (IZR (canvas_height s) - halfDiag (store s a))
                (snd pos - snd (dragOffset s)) ltac:(lra)) as Hy.
  apply (insideAt_canvas s); [exact Hcw | exact Hch |].
  exact (centred_rectangle_inside s _ _
           (box_width (store s a)) (box_height (store s a)) theta Hx Hy).
Qed.

(** C5.  While a rotated box is held and its clamp intervals are not
    empty, every move that the handler acts on leaves the box, turned to
    any angle, painted entirely inside the canvas; and every move event,
    acted on or not, preserves this as an invariant of the drag. *)
Theorem rotated_drag_stays_inside
    (g : GestureMove) (s : State) (a : Address) :
  draggedBox s = Some a ->
  isRotated (store s a) = true ->
  2 * halfDiag (store s a) <= IZR (canvas_width s) ->
  2 * halfDiag (store s a) <= IZR (canvas_height s) ->
  (acts g s ->
   forall theta,
     insideAt (gestureMove g s) (store (gestureMove g s) a) theta) /\
  (heldInside s -> heldInside (gestureMove g s)).
Proof.
  intros Hd Hrot Hw Hh. split.
  - intros Hacts theta.
    destruct (gestureMove_acts g s a Hd Hacts) as [pos ->].
    now apply dragTo_rotated_inside.
  - intros Hinv.
    destruct (gestureMove_held g s a Hd) as [-> | [pos ->]]; [exact Hinv |].
    intros a' Hd' _ theta.
    destruct (dragTo_frame pos a s) as (_ & _ & Hdb & _).
    rewrite Hdb, Hd in Hd'. injection Hd' as <-.
    now apply dragTo_rotated_inside.
Qed.

(** C10.  With a box held, every move that the handler acts on resolves
    an empty clamp interval to its lower bound: a standard box wider
    (taller) than the canvas ends with [x = 0] ([y = 0]), and a rotated
    box whose diagonal exceeds the canvas width (height) ends with its
    centre at [x = halfDiag] ([y = halfDiag]), wherever the pointer is. *)
Theorem empty_clamp_takes_lower_bound
    (g : GestureMove) (s : State) (a : Address) :
  draggedBox s = Some a ->
  acts g s ->
  let before := store s a in
  let after := store (gestureMove g s) a in
  (isRotated before = false ->
   (IZR (canvas_width s) < box_width before -> box_x after = 0) /\
   (IZR (canvas_height s) < box_height before -> box_y after = 0)) /\
  (isRotated before = true ->
   (IZR (canvas_width s) < 2 * halfDiag before ->
    box_x after = halfDiag before) /\
   (IZR (canvas_height s) < 2 * halfDiag before ->
    box_y after = halfDiag before)).
Proof.
  intros Hd Hacts before after.
  destruct (gestureMove_acts g s a Hd Hacts) as [pos Hmove].
  subst after. rewrite Hmove, dragTo_store. subst before.
  unfold isRotated.
  destruct (box_type (store s a)) as [theta|]; split; intros Hk;
    try discriminate; cbn [box_x box_y];
    split; intros Hbig; apply clamp_empty; lra.
Qed.

Lemma smallBar_halfDiag : halfDiag smallBar = 50.
Proof.
  unfold halfDiag, smallBar. cbn.
  rewrite (sqrt_of_square_sum 60 80 100) by (lra || ring). lra.
Qed.

Lemma rotated_drag_stays_inside_witness :
  let s := draggingPage 1000 1000 smallBar in
  let g := MouseMove 5000 (-300) in
  draggedBox s = Some 0%nat /\
  isRotated (store s 0%nat) = true /\
  2 * halfDiag (store s 0%nat) <= IZR (canvas_width s) /\
  2 * halfDiag (store s 0%nat) <= IZR (canvas_height s) /\
  (forall theta,
     insideAt (gestureMove g s) (store (gestureMove g s) 0%nat) theta) /\
  (heldInside s -> heldInside (gestureMove g s)).
Proof.
  intros s g.
  assert (Hd : draggedBox s = Some 0%nat) by reflexivity.
  assert (Hrot : isRotated (store s 0%nat) = true) by reflexivity.
  assert (Hhd : halfDiag (store s 0%nat) = 50) by exact smallBar_halfDiag.
  assert (Hw : 2 * halfDiag (store s 0%nat) <= IZR (canvas_width s)).
  { rewrite Hhd. cbn. lra. }
  assert (Hh : 2 * halfDiag (store s 0%nat) <= IZR (canvas_height s)).
  { rewrite Hhd. cbn. lra. }
  assert (Hacts : acts g s) by (cbn; discriminate).
  destruct (rotated_drag_stays_inside g s 0%nat Hd Hrot Hw Hh)
    as [Hin Hinv].
  exact (conj Hd (conj Hrot (conj Hw (conj Hh (conj (Hin Hacts) Hinv))))).
Defined.

Lemma empty_clamp_takes_lower_bound_witness :
  let s := draggingPage 40 40 wideStrip in
  let g := TouchMove [(7, 9)] in
  draggedBox s = Some 0%nat /\
  acts g s /\
  box_x (store (gestureMove g s) 0%nat) = 0 /\
  box_y (store (gestureMove g s) 0%nat) = 0.
Proof.
  intros s g.
  assert (Hd : draggedBox s = Some 0%nat) by reflexivity.
  assert (Hacts : acts g s) by reflexivity.
  destruct (empty_clamp_takes_lower_bound g s 0%nat Hd Hacts)
    as [Hstd _].
  destruct (Hstd eq_refl) as [Hx Hy].
  refine (conj Hd (conj Hacts (conj (Hx _) (Hy _)))); cbn; lra.
Defined.

(** ** The detect button *)

(** The handler reaches its [catch] clause in two ways only: the detector
    call rejects, or it brings detections while no pixel buffer has been
    saved. *)
Lemma raises_cases r s :
  raises r s = true ->
  detector s = true /\
  ((canvas_width s =? 0)%Z || (canvas_height s =? 0)%Z) = false /\
  (r = Rejected \/
   exists found det ds,
     r = Resolved found /\
     match found with Some l => l | None => [] end = det :: ds /\
     originalImageData s = None).
Proof.
  unfold raises. intros H.
  apply andb_true_iff in H as [H Hthrew].
  apply andb_true_iff in H as [Hdet Hcanvas].
  apply negb_true_iff in Hcanvas.
  repeat split; try assumption.
  destruct r as [|found]; [now left | right].
  unfold detectTry in Hthrew. cbn in Hthrew.
  destruct (match found with Some l => l | None => [] end)
    as [|det ds] eqn:Hfound; cbn in Hthrew; [discriminate |].
  destruct (originalImageData s) eqn:Himg.
  - destruct (List.length _ =? 0)%nat in Hthrew; discriminate.
  - exists found, det, ds. repeat split; assumption.
Qed.

(** C9, as amended.  When the detector call resolves with no detection,
    the handler reports the status "No faces detected", which is not an
    error, and returns: the stored detections are empty, and the box
    set, the box objects and the canvas content are left as they were.
    The calculator itself returns no box for no detection. *)
Theorem no_faces_is_informational (found : option (list Detection))
    (s : State) :
  detector s = true ->
  canvas_width s <> 0%Z ->
  canvas_height s <> 0%Z ->
  match found with Some ds => ds | None => [] end = [] ->
  let s' := detectClick (Resolved found) s in
  status s' = ("No faces detected"%string, false) /\
  detections s' = [] /\
  redactionBoxes s' = redactionBoxes s /\
  store s' = store s /\
  pixels s' = pixels s /\
  compute [] s = [].
Proof.
  intros Hdet Hw Hh Hfound s'. subst s'.
  unfold detectClick. rewrite Hdet. cbn [negb].
  apply Z.eqb_neq in Hw, Hh. rewrite Hw, Hh. cbn [orb].
  unfold detectTry. cbn. rewrite Hfound. cbn. repeat split.
Qed.

Lemma no_faces_is_informational_witness :
  let s' := detectClick (Resolved (Some [])) redactedPage in
  detector redactedPage = true /\
  canvas_width redactedPage <> 0%Z /\
  canvas_height redactedPage <> 0%Z /\
  status s' = ("No faces detected"%string, false) /\
  detections s' = [] /\
  redactionBoxes s' = redactionBoxes redactedPage.
Proof.
  intros s'.
  assert (Hdet : detector redactedPage = true) by reflexivity.
  assert (Hw : canvas_width redactedPage <> 0%Z) by discriminate.
  assert (Hh : canvas_height redactedPage <> 0%Z) by discriminate.
  destruct (no_faces_is_informational (Some []) redactedPage Hdet Hw Hh
              eq_refl) as (Hst & Hds & Hboxes & _).
  exact (conj Hdet (conj Hw (conj Hh (conj Hst (conj Hds Hboxes))))).
Defined.

(** C9, as stated, fails: a pass that finds no face on a page that holds
    a box from an earlier pass reports "No faces detected" and leaves
    that box in the set. *)
Lemma no_faces_keeps_boxes :
  redactionBoxes redactedPage <> [] /\
  status (detectClick (Resolved (Some [])) redactedPage)
  = ("No faces detected"%string, false) /\
  redactionBoxes (detectClick (Resolved (Some [])) redactedPage) <> [].
Proof. repeat split; discriminate. Qed.

(** * Further properties of the page *)

(** ** Box calculator *)

Lemma hypot_nonneg a b : 0 <= Math.hypot a b.
Proof. unfold Math.hypot. apply sqrt_pos. Qed.

Lemma hypot_square a b :
  Math.hypot a b * Math.hypot a b = a * a + b * b.
Proof.
  unfold Math.hypot. apply sqrt_sqrt.
  pose proof (Rle_0_sqr a) as Ha. pose proof (Rle_0_sqr b) as Hb.
  unfold Rsqr in Ha, Hb. lra.
Qed.

Lemma sqrt_one_plus_square_pos t : 0 < sqrt (1 + t²).
Proof.
  apply sqrt_lt_R0. pose proof (Rle_0_sqr t). lra.
Qed.

(** The hypotenuse over a non-zero abscissa. *)
Lemma hypot_slope dx dy :
  dx <> 0 -> Math.hypot dx dy = Rabs dx * sqrt (1 + (dy / dx)²).
Proof.
  intros Hdx. unfold Math.hypot.
  replace (dx * dx + dy * dy) with (Rsqr dx * (1 + (dy / dx)²))
    by (unfold Rsqr; field; exact Hdx).
  rewrite sqrt_mult.
  - now rewrite sqrt_Rsqr_abs.
  - apply Rle_0_sqr.
  - pose proof (Rle_0_sqr (dy / dx)). lra.
Qed.

(** [atan2] and [hypot] are the polar coordinates of the point. *)
Lemma atan2_polar dx dy :
  Math.hypot dx dy * cos (Math.atan2 dy dx) = dx /\
  Math.hypot dx dy * sin (Math.atan2 dy dx) = dy.
Proof.
  unfold Math.atan2.
  destruct (Rlt_dec 0 dx) as [Hpos | Hnpos].
  - rewrite hypot_slope by lra. rewrite Rabs_pos_eq by lra.
    rewrite cos_atan, sin_atan.
    pose proof (sqrt_one_plus_square_pos (dy / dx)) as Hs.
    split; field; lra.
  - destruct (Rlt_dec dx 0) as [Hneg | Hnneg].
    + rewrite hypot_slope by lra. rewrite Rabs_left by lra.
      pose proof (sqrt_one_plus_square_pos (dy / dx)) as Hs.
      destruct (Rle_dec 0 dy).
      * rewrite neg_cos, neg_sin, cos_atan, sin_atan. split; field; lra.
      * replace (atan (dy / dx) - PI) with (- (PI - atan (dy / dx)))
          by ring.
        rewrite cos_neg, sin_neg, sin_PI_x.
        replace (PI - atan (dy / dx)) with (- atan (dy / dx) + PI) by ring.
        rewrite neg_cos, cos_neg, cos_atan, sin_atan. split; field; lra.
    + assert (Hz : dx = 0) by lra. subst dx.
      unfold Math.hypot.
      replace (0 * 0 + dy * dy) with (Rsqr dy) by (unfold Rsqr; ring).
      rewrite sqrt_Rsqr_abs.
      destruct (Rlt_dec 0 dy).
      * rewrite cos_PI2, sin_PI2, Rabs_pos_eq by lra. lra.
      * destruct (Rlt_dec dy 0).
        -- rewrite cos_neg, sin_neg, cos_PI2, sin_PI2, Rabs_left by lra. lra.
        -- assert (dy = 0) by lra. subst dy. rewrite Rabs_R0. lra.
Qed.

(** X1.  Both eye points, once normalised, are accepted by the hit test
    of the rotated bar that the keypoint branch builds from them. *)
Theorem rotated_bar_covers_both_eyes (cw ch rx ry lx ly : R) :
  let box := rotatedBar cw ch (rx, ry) (lx, ly) in
  hitTest (normalizeAxis rx cw) (normalizeAxis ry ch) box = true /\
  hitTest (normalizeAxis lx cw) (normalizeAxis ly ch) box = true.
Proof.
  cbv zeta. rewrite rotatedBar_geometry. cbv zeta.
  set (rex := normalizeAxis rx cw). set (rey := normalizeAxis ry ch).
  set (lex := normalizeAxis lx cw). set (ley := normalizeAxis ly ch).
  set (dx := lex - rex). set (dy := ley - rey).
  destruct (atan2_polar dx dy) as [Hc Hs].
  pose proof (hypot_nonneg dx dy) as Hd.
  pose proof (hypot_square dx dy) as Hd2.
  pose proof (sin2_cos2 (Math.atan2 dy dx)) as Hu. unfold Rsqr in Hu.
  set (d := Math.hypot dx dy) in *.
  set (c := cos (Math.atan2 dy dx)) in *.
  set (sn := sin (Math.atan2 dy dx)) in *.
  assert (Hx : dx * c + dy * sn = d).
  { rewrite <- Hc, <- Hs. transitivity (d * (sn * sn + c * c)); [ring |].
    rewrite Hu. ring. }
  assert (Hy : dx * sn - dy * c = 0).
  { rewrite <- Hc at 1. rewrite <- Hs at 1. ring. }
  unfold hitTest. cbn [box_type box_x box_y box_width box_height].
  unfold Math.cos, Math.sin, Math.abs.
  rewrite cos_neg, sin_neg. fold c sn.
  split; apply andb_true_iff; split; apply Rleb_true.
  - replace ((rex - (rex + lex) / 2) * c - (rey - (rey + ley) / 2) * - sn)
      with (- (d / 2)) by (subst dx dy; lra).
    rewrite Rabs_Ropp, Rabs_pos_eq; lra.
  - replace ((rex - (rex + lex) / 2) * - sn + (rey - (rey + ley) / 2) * c)
      with 0 by (subst dx dy; lra).
    rewrite Rabs_R0. lra.
  - replace ((lex - (rex + lex) / 2) * c - (ley - (rey + ley) / 2) * - sn)
      with (d / 2) by (subst dx dy; lra).
    rewrite Rabs_pos_eq; lra.
  - replace ((lex - (rex + lex) / 2) * - sn + (ley - (rey + ley) / 2) * c)
      with 0 by (subst dx dy; lra).
    rewrite Rabs_R0. lra.
Qed.

Lemma emitted_size cw ch det :
  (forall bb, boundingBox det = Some bb ->
     0 <= bb_width bb /\ 0 <= bb_height bb) ->
  Forall nonNegativeSize (emitted cw ch det).
Proof.
  intros Hbb. unfold emitted.
  destruct (usableEyes det) as [[[rx ry] [lx ly]]|].
  - constructor; [| constructor].
    rewrite rotatedBar_geometry. cbv zeta. unfold nonNegativeSize. cbn.
    match goal with |- context [Math.hypot ?a ?b] =>
      pose proof (hypot_nonneg a b) end.
    lra.
  - destruct (boundingBox det) as [bb|]; [| constructor].
    destruct (Hbb bb eq_refl) as [Hw Hh].
    constructor; [| constructor].
    unfold nonNegativeSize, eyeStrip. cbn. lra.
Qed.

(** X2.  Every box that the calculator returns has a non-negative width
    and height, provided the bounding boxes of the detections have; the
    rotated bars do so unconditionally. *)
Theorem computed_boxes_have_size (ds : list Detection) (s : State) :
  (forall det bb, In det ds -> boundingBox det = Some bb ->
     0 <= bb_width bb /\ 0 <= bb_height bb) ->
  Forall nonNegativeSize (compute ds s) /\
  (forall ds', Forall (fun box => isRotated box = true -> nonNegativeSize box)
                 (compute ds' s)).
Proof.
  intros Hds. split.
  - rewrite compute_flat_map. induction ds as [|det ds IH]; [constructor |].
    cbn. apply Forall_app. split.
    + apply emitted_size. intros bb. apply Hds. now left.
    + apply IH. intros d bb Hin. apply Hds. now right.
  - intros ds'. rewrite compute_flat_map.
    induction ds' as [|det ds' IH]; [constructor |].
    cbn. apply Forall_app. split; [| exact IH].
    unfold emitted. destruct (usableEyes det) as [[[rx ry] [lx ly]]|].
    + constructor; [| constructor]. intros _.
      rewrite rotatedBar_geometry. cbv zeta. unfold nonNegativeSize. cbn.
      match goal with |- context [Math.hypot ?a ?b] =>
        pose proof (hypot_nonneg a b) end.
      lra.
    + destruct (boundingBox det); constructor; [discriminate | constructor].
Qed.

Lemma computed_boxes_have_size_witness :
  (forall det bb, In det [levelEyes; faceOnly] ->
     boundingBox det = Some bb -> 0 <= bb_width bb /\ 0 <= bb_height bb) /\
  Forall nonNegativeSize (compute [levelEyes; faceOnly] (loadedPage 1000 1000)).
Proof.
  assert (H : forall det bb, In det [levelEyes; faceOnly] ->
     boundingBox det = Some bb -> 0 <= bb_width bb /\ 0 <= bb_height bb).
  { intros det bb [<- | [<- | []]] Hbb; cbn in Hbb; [discriminate |].
    injection Hbb as <-. cbn. lra. }
  exact (conj H (proj1 (computed_boxes_have_size [levelEyes; faceOnly]
                          (loadedPage 1000 1000) H))).
Defined.

(** What a standard fill paints, in canvas coordinates. *)
Lemma covers_standard box px py :
  box_type box = standard ->
  covers (fillOf box) px py <->
  Rmin (box_x box) (box_x box + box_width box) <= px
    <= Rmax (box_x box) (box_x box + box_width box) /\
  Rmin (box_y box) (box_y box + box_height box) <= py
    <= Rmax (box_y box) (box_y box + box_height box).
Proof.
  intros Ht. unfold covers, fillOf. rewrite Ht. cbn.
  rewrite cos_0, sin_0. split.
  - intros (u & v & Hu & Hv & -> & ->).
    replace (0 + (u * 1 - v * 0)) with u by ring.
    replace (0 + (u * 0 + v * 1)) with v by ring. now split.
  - intros [Hx Hy]. exists px, py. repeat split; try tauto; ring.
Qed.

(** X3.  The eye strip of the fallback is painted inside the bounding box
    of the face, when that box has a non-negative size. *)
Theorem eye_strip_inside_face (bb : BoundingBox) (px py : R) :
  0 <= bb_width bb -> 0 <= bb_height bb ->
  covers (fillOf (eyeStrip bb)) px py -> inBoundingBox bb px py.
Proof.
  intros Hw Hh Hc. apply covers_standard in Hc; [| reflexivity].
  unfold eyeStrip in Hc. cbn in Hc. unfold inBoundingBox.
  unfold Rmin, Rmax in Hc.
  repeat match type of Hc with context [Rle_dec ?a ?b] =>
    destruct (Rle_dec a b) end; lra.
Qed.

Lemma eye_strip_inside_face_witness :
  let bb := mkBoundingBox 100 100 200 200 in
  0 <= bb_width bb /\ 0 <= bb_height bb /\
  covers (fillOf (eyeStrip bb)) 200 160 /\
  inBoundingBox bb 200 160.
Proof.
  intros bb.
  assert (Hw : 0 <= bb_width bb) by (cbn; lra).
  assert (Hh : 0 <= bb_height bb) by (cbn; lra).
  assert (Hc : covers (fillOf (eyeStrip bb)) 200 160).
  { apply covers_standard; [reflexivity |]. unfold eyeStrip. cbn.
    unfold Rmin, Rmax.
    repeat match goal with |- context [Rle_dec ?a ?b] =>
      destruct (Rle_dec a b) end; lra. }
  exact (conj Hw (conj Hh (conj Hc
           (eye_strip_inside_face bb 200 160 Hw Hh Hc)))).
Defined.

(** The calculator leaves everything but the box array and the store
    alone. *)
Lemma calculateStep_frame s det :
  detections (calculateStep s det) = detections s /\
  pixels (calculateStep s det) = pixels s /\
  draggedBox (calculateStep s det) = draggedBox s /\
  dragOffset (calculateStep s det) = dragOffset s /\
  originalImageData (calculateStep s det) = originalImageData s /\
  debugMode (calculateStep s det) = debugMode s /\
  status (calculateStep s det) = status s /\
  downloadDisabled (calculateStep s det) = downloadDisabled s.
Proof.
  unfold calculateStep.
  destruct (usableEyes det) as [[re le]|]; [repeat split |].
  destruct (boundingBox det); repeat split.
Qed.

Lemma loop_frame ds : forall s,
  let s' := fold_left calculateStep ds s in
  detections s' = detections s /\
  pixels s' = pixels s /\
  draggedBox s' = draggedBox s /\
  dragOffset s' = dragOffset s /\
  originalImageData s' = originalImageData s /\
  debugMode s' = debugMode s /\
  status s' = status s /\
  downloadDisabled s' = downloadDisabled s /\
  canvas_width s' = canvas_width s /\
  canvas_height s' = canvas_height s.
Proof.
  induction ds as [|det ds IH]; intros s; cbn; [repeat split |].
  destruct (IH (calculateStep s det))
    as (-> & -> & -> & -> & -> & -> & -> & -> & -> & ->).
  destruct (calculateStep_frame s det)
    as (-> & -> & -> & -> & -> & -> & -> & ->).
  destruct (calculateStep_canvas s det) as [-> ->].
  repeat split.
Qed.

Lemma calculate_frame s :
  let s' := calculateRedactionBoxes s in
  detections s' = detections s /\
  pixels s' = pixels s /\
  draggedBox s' = draggedBox s /\
  dragOffset s' = dragOffset s /\
  originalImageData s' = originalImageData s /\
  debugMode s' = debugMode s /\
  status s' = status s /\
  downloadDisabled s' = downloadDisabled s /\
  canvas_width s' = canvas_width s /\
  canvas_height s' = canvas_height s.
Proof.
  unfold calculateRedactionBoxes.
  exact (loop_frame (detections s) (set_redactionBoxes [] s)).
Qed.

Lemma boxes_calculate s :
  boxes (calculateRedactionBoxes s)
  = flat_map (emitted (IZR (canvas_width s)) (IZR (canvas_height s)))
      (detections s).
Proof.
  unfold calculateRedactionBoxes.
  rewrite boxes_loop by constructor. reflexivity.
Qed.

(** X4.  A run of the calculator replaces the box set: the boxes it
    leaves depend on the stored detections and the canvas extents only,
    not on the boxes, the store or anything else of the page before; and
    it changes neither the detections nor the canvas content nor the drag
    state. *)
Theorem calculation_replaces_box_set (s1 s2 : State) :
  detections s1 = detections s2 ->
  canvas_width s1 = canvas_width s2 ->
  canvas_height s1 = canvas_height s2 ->
  boxes (calculateRedactionBoxes s1) = boxes (calculateRedactionBoxes s2) /\
  boxes (calculateRedactionBoxes (calculateRedactionBoxes s1))
  = boxes (calculateRedactionBoxes s1) /\
  detections (calculateRedactionBoxes s1) = detections s1 /\
  pixels (calculateRedactionBoxes s1) = pixels s1 /\
  draggedBox (calculateRedactionBoxes s1) = draggedBox s1.
Proof.
  intros Hd Hw Hh.
  destruct (calculate_frame s1)
    as (Hd1 & Hp1 & Hdb1 & _ & _ & _ & _ & _ & Hw1 & Hh1).
  cbv zeta in *.
  repeat split; try assumption.
  - now rewrite !boxes_calculate, Hd, Hw, Hh.
  - now rewrite (boxes_calculate (calculateRedactionBoxes s1)),
      boxes_calculate, Hd1, Hw1, Hh1.
Qed.

Lemma calculation_replaces_box_set_witness :
  let s1 := heldBeforeRecompute in
  let s2 := set_detections [levelEyes; faceOnly] (loadedPage 1000 1000) in
  detections s1 = detections s2 /\
  canvas_width s1 = canvas_width s2 /\
  canvas_height s1 = canvas_height s2 /\
  boxes (calculateRedactionBoxes s1) = boxes (calculateRedactionBoxes s2).
Proof.
  intros s1 s2.
  exact (conj eq_refl (conj eq_refl (conj eq_refl
           (proj1 (calculation_replaces_box_set s1 s2
                     eq_refl eq_refl eq_refl))))).
Defined.

(** Allocation during a run of the calculator. *)
Lemma push_store_old box s a :
  (a < fresh s)%nat -> store (push box s) a = store s a.
Proof.
  intros Ha. unfold push. cbn.
  destruct (Nat.eqb_spec a (fresh s)); [lia | reflexivity].
Qed.

Lemma calculateStep_alloc s det :
  (fresh s <= fresh (calculateStep s det))%nat /\
  (forall a, (a < fresh s)%nat ->
     store (calculateStep s det) a = store s a) /\
  (forall a, In a (redactionBoxes (calculateStep s det)) ->
     In a (redactionBoxes s) \/
     (fresh s <= a < fresh (calculateStep s det))%nat).
Proof.
  unfold calculateStep.
  destruct (usableEyes det) as [[re le]|];
    [| destruct (boundingBox det) as [bb|]].
  1,2: repeat split;
    [ cbn; lia
    | intros a Ha; now apply push_store_old
    | intros a Hin; unfold push in Hin; cbn in Hin;
      apply in_app_or in Hin as [Hin | [<- | []]];
      [now left | right; cbn; lia] ].
  repeat split; [lia | auto].
Qed.

Lemma loop_alloc ds : forall s,
  let s' := fold_left calculateStep ds s in
  (fresh s <= fresh s')%nat /\
  (forall a, (a < fresh s)%nat -> store s' a = store s a) /\
  (forall a, In a (redactionBoxes s') ->
     In a (redactionBoxes s) \/ (fresh s <= a < fresh s')%nat).
Proof.
  induction ds as [|det ds IH]; intros s; cbn.
  - repeat split; [lia | auto].
  - destruct (IH (calculateStep s det)) as (Hf & Hst & Hin).
    destruct (calculateStep_alloc s det) as (Hf1 & Hst1 & Hin1).
    repeat split.
    + lia.
    + intros a Ha. rewrite Hst by lia. now apply Hst1.
    + intros a Ha. destruct (Hin a Ha) as [Hold | Hnew].
      * destruct (Hin1 a Hold) as [? | ?]; [now left | right; lia].
      * right. lia.
Qed.

Lemma loop_NoDup ds : forall s,
  allocated s -> NoDup (redactionBoxes s) ->
  NoDup (redactionBoxes (fold_left calculateStep ds s)).
Proof.
  induction ds as [|det ds IH]; intros s Hal Hnd; cbn; [exact Hnd |].
  apply IH; [now apply calculateStep_allocated |].
  assert (Hpush : forall box, NoDup (redactionBoxes (push box s))).
  { intros box. unfold push. cbn.
    apply NoDup_app; [exact Hnd | repeat constructor; intros [] |].
    intros a Ha [<- | []].
    unfold allocated in Hal. rewrite Forall_forall in Hal.
    specialize (Hal _ Ha). lia. }
  unfold calculateStep.
  destruct (usableEyes det) as [[re le]|]; [apply Hpush |].
  destruct (boundingBox det); [apply Hpush | exact Hnd].
Qed.

Lemma calculate_entries_fresh s a :
  In a (redactionBoxes (calculateRedactionBoxes s)) -> (fresh s <= a)%nat.
Proof.
  unfold calculateRedactionBoxes. intros Hin.
  destruct (loop_alloc (detections s) (set_redactionBoxes [] s))
    as (_ & _ & Hnew).
  destruct (Hnew a Hin) as [[] | Hfresh]. cbn in Hfresh. lia.
Qed.

(** X5.  The calculator builds new objects: every entry of the array it
    leaves was allocated during the run, no object occurs twice in the
    array, and the objects that existed before are not written to. *)
Theorem calculation_allocates_fresh_boxes (s : State) :
  let s' := calculateRedactionBoxes s in
  (forall a, In a (redactionBoxes s') -> (fresh s <= a < fresh s')%nat) /\
  NoDup (redactionBoxes s') /\
  (forall a, (a < fresh s)%nat -> store s' a = store s a).
Proof.
  cbv zeta. unfold calculateRedactionBoxes.
  destruct (loop_alloc (detections s) (set_redactionBoxes [] s))
    as (_ & Hst & Hin).
  split; [| split].
  - intros a Ha. destruct (Hin a Ha) as [[] | Hnew]. cbn in Hnew. lia.
  - apply loop_NoDup; constructor.
  - exact Hst.
Qed.

(** ** Hit tester and renderer *)

Lemma interval_nonneg a w u :
  0 <= w -> (Rmin a (a + w) <= u <= Rmax a (a + w) <-> a <= u <= a + w).
Proof.
  intros Hw. unfold Rmin, Rmax.
  destruct (Rle_dec a (a + w)); split; intros; lra.
Qed.






Lemma fillOf_not_stroke box : op_stroke (fillOf box) = false.
Proof. unfold fillOf. destruct (box_type box); reflexivity. Qed.

(** X8.  The debug outlines change nothing of what is filled: in either
    mode the fills issued for a list of boxes are the [fillRect] calls of
    the boxes, one each and in order, and whatever else is issued is a
    stroke along the rectangle of one of the boxes. *)
Theorem debug_mode_keeps_fills (debug : bool) (bs : list RedactionBox) :
  filter (fun op => negb (op_stroke op)) (flat_map (drawBox debug) bs)
  = map fillOf bs /\
  (forall op, In op (flat_map (drawBox debug) bs) ->
     op_stroke op = true ->
     debug = true /\
     exists box, In box bs /\ isRotated box = true /\
       forall px py, covers op px py <-> covers (fillOf box) px py).
Proof.
  split.
  - induction bs as [|box bs IH]; [reflexivity |].
    cbn [flat_map map]. rewrite filter_app, IH. f_equal.
    unfold drawBox.
    pose proof (fillOf_not_stroke box) as Hf.
    destruct (box_type box); cbn [filter]; rewrite Hf; cbn [negb];
      [destruct debug; reflexivity | reflexivity].
  - intros op Hin Hstroke.
    apply in_flat_map in Hin as (box & Hbox & Hop).
    unfold drawBox in Hop.
    pose proof (fillOf_not_stroke box) as Hf.
    destruct (box_type box) as [theta|] eqn:Ht.
    + destruct Hop as [<- | Hop]; [congruence |].
      destruct debug; [| destruct Hop].
      destruct Hop as [<- | []].
      split; [reflexivity |]. exists box.
      split; [exact Hbox |]. split; [unfold isRotated; now rewrite Ht |].
      intros px py. unfold fillOf. rewrite Ht. reflexivity.
    + destruct Hop as [<- | []]. congruence.
Qed.

Lemma mutate_frame_more a f s :
  originalImageData (mutate a f s) = originalImageData s /\
  debugMode (mutate a f s) = debugMode s /\
  detections (mutate a f s) = detections s /\
  pixels (mutate a f s) = pixels s.
Proof. repeat split. Qed.

Lemma clampDragged_frame_more a s :
  originalImageData (clampDragged a s) = originalImageData s /\
  debugMode (clampDragged a s) = debugMode s /\
  detections (clampDragged a s) = detections s.
Proof. unfold clampDragged. destruct (box_type (store s a)); repeat split. Qed.

Lemma redrawCanvas_pixels s img :
  originalImageData s = Some img ->
  pixels (redrawCanvas s)
  = mkSurface (Some img) (flat_map (drawBox (debugMode s)) (boxes s)).
Proof. intros H. unfold redrawCanvas. rewrite H. reflexivity. Qed.

Lemma redrawCanvas_boxes s : boxes (redrawCanvas s) = boxes s.
Proof.
  unfold boxes.
  destruct (redrawCanvas_frame s) as (-> & _ & _ & _ & ->). reflexivity.
Qed.

(** X9.  With a saved pixel buffer, every move that the handler acts on
    leaves the canvas showing that buffer with exactly the boxes of the
    array painted over it, in array order and at their new positions;
    nothing of the previous frame remains. *)
Theorem move_repaints_current_boxes
    (g : GestureMove) (s : State) (a : Address) (img : ImageData) :
  originalImageData s = Some img ->
  draggedBox s = Some a ->
  acts g s ->
  pixels (gestureMove g s)
  = mkSurface (Some img)
      (flat_map (drawBox (debugMode s)) (boxes (gestureMove g s))).
Proof.
  intros Himg Hd Hacts.
  destruct (gestureMove_acts g s a Hd Hacts) as [pos ->].
  unfold dragTo. cbv zeta. rewrite redrawCanvas_boxes.
  set (t := mutate a _ (mutate a _ s)).
  destruct (clampDragged_frame_more a t) as (Horig & Hdebug & _).
  rewrite (redrawCanvas_pixels (clampDragged a t) img)
    by (rewrite Horig; exact Himg).
  rewrite Hdebug. reflexivity.
Qed.

Lemma move_repaints_current_boxes_witness :
  let s := draggingPage 1000 1000 smallBar in
  let g := MouseMove 300 200 in
  originalImageData s = Some 0%nat /\
  draggedBox s = Some 0%nat /\
  acts g s /\
  pixels (gestureMove g s)
  = mkSurface (Some 0%nat)
      (flat_map (drawBox (debugMode s)) (boxes (gestureMove g s))).
Proof.
  intros s g.
  assert (Hacts : acts g s) by (cbn; discriminate).
  exact (conj eq_refl (conj eq_refl (conj Hacts
           (move_repaints_current_boxes g s 0%nat 0%nat
              eq_refl eq_refl Hacts)))).
Defined.

(** ** Drag controller, continued *)

Lemma store_mutate_other a a' f s :
  a' <> a -> store (mutate a f s) a' = store s a'.
Proof.
  intros Hne. unfold mutate, update. cbn.
  destruct (Nat.eqb_spec a' a); [contradiction | reflexivity].
Qed.

Lemma clampDragged_other a a' s :
  a' <> a -> store (clampDragged a s) a' = store s a'.
Proof.
  intros Hne. unfold clampDragged.
  destruct (box_type (store s a)); cbv zeta;
    now rewrite !store_mutate_other by exact Hne.
Qed.

Lemma dragTo_other pos a a' s :
  a' <> a -> store (dragTo pos a s) a' = store s a'.
Proof.
  intros Hne. unfold dragTo. cbv zeta.
  match goal with |- context [redrawCanvas ?t] =>
    destruct (redrawCanvas_frame t) as [-> _] end.
  rewrite clampDragged_other by exact Hne.
  now rewrite !store_mutate_other by exact Hne.
Qed.

(** X6.  A drag that was in progress when the box set was recomputed
    holds an object of the old set: no move event changes any box of the
    new set, nor the array. *)
Theorem stale_drag_moves_no_new_box
    (g : GestureMove) (s : State) (a : Address) :
  draggedBox s = Some a ->
  (a < fresh s)%nat ->
  let s' := calculateRedactionBoxes s in
  boxes (gestureMove g s') = boxes s' /\
  redactionBoxes (gestureMove g s') = redactionBoxes s'.
Proof.
  intros Hd Ha s'.
  assert (Hd' : draggedBox s' = Some a).
  { subst s'. destruct (calculate_frame s) as (_ & _ & -> & _). exact Hd. }
  destruct (gestureMove_held g s' a Hd') as [-> | [pos ->]];
    [split; reflexivity |].
  destruct (dragTo_frame pos a s') as (_ & _ & _ & Harr).
  split; [| exact Harr].
  unfold boxes. rewrite Harr. apply map_ext_in. intros a' Hin.
  apply dragTo_other.
  pose proof (calculate_entries_fresh s a' Hin). lia.
Qed.

Lemma stale_drag_moves_no_new_box_witness :
  let s := heldBeforeRecompute in
  let g := TouchMove [(700, 20)] in
  draggedBox s = Some 0%nat /\
  (0 < fresh s)%nat /\
  boxes (gestureMove g (calculateRedactionBoxes s))
  = boxes (calculateRedactionBoxes s).
Proof.
  intros s g.
  assert (Hd : draggedBox s = Some 0%nat) by reflexivity.
  assert (Ha : (0 < fresh s)%nat) by (cbn; lia).
  exact (conj Hd (conj Ha
           (proj1 (stale_drag_moves_no_new_box g s 0%nat Hd Ha)))).
Defined.

(** The position of the held box after a move, by the anchor ranges. *)
Lemma dragTo_anchor pos a s :
  let box := store s a in
  let cw := IZR (canvas_width s) in
  let ch := IZR (canvas_height s) in
  store (dragTo pos a s) a
  = mkBox
      (clamp (fst (anchorRangeX cw box)) (snd (anchorRangeX cw box))
         (fst pos - fst (dragOffset s)))
      (clamp (fst (anchorRangeY ch box)) (snd (anchorRangeY ch box))
         (snd pos - snd (dragOffset s)))
      (box_width box) (box_height box) (box_type box).
Proof.
  cbv zeta. rewrite dragTo_store. unfold anchorRangeX, anchorRangeY.
  destruct (box_type (store s a)); reflexivity.
Qed.

Lemma redrawCanvas_frame_more s :
  dragOffset (redrawCanvas s) = dragOffset s /\
  clientRect (redrawCanvas s) = clientRect s /\
  detections (redrawCanvas s) = detections s /\
  originalImageData (redrawCanvas s) = originalImageData s /\
  debugMode (redrawCanvas s) = debugMode s.
Proof.
  unfold redrawCanvas. destruct (originalImageData s) eqn:E; cbn;
    rewrite ?E; repeat split.
Qed.

Lemma clampDragged_frame_rect a s :
  dragOffset (clampDragged a s) = dragOffset s /\
  clientRect (clampDragged a s) = clientRect s.
Proof. unfold clampDragged. destruct (box_type (store s a)); repeat split. Qed.

Lemma dragTo_frame_more pos a s :
  dragOffset (dragTo pos a s) = dragOffset s /\
  clientRect (dragTo pos a s) = clientRect s /\
  detections (dragTo pos a s) = detections s /\
  originalImageData (dragTo pos a s) = originalImageData s.
Proof.
  unfold dragTo. cbv zeta. set (t := mutate a _ (mutate a _ s)).
  destruct (redrawCanvas_frame_more (clampDragged a t))
    as (-> & -> & -> & -> & _).
  destruct (clampDragged_frame_rect a t) as (-> & ->).
  destruct (clampDragged_frame_more a t) as (-> & _ & ->).
  repeat split.
Qed.

(** A move with a box held and acted on, with the pointer it reads. *)
Lemma gestureMove_pointer g s a :
  draggedBox s = Some a -> acts g s ->
  exists pos, movePointer g s = Some pos /\ gestureMove g s = dragTo pos a s.
Proof.
  intros Hd Hacts. destruct g as [cx cy | touches]; cbn in *.
  - unfold mousemove. destruct (redactionBoxes s); [contradiction |].
    cbn. rewrite Hd. eexists. split; reflexivity.
  - unfold touchmove. rewrite Hd, Hacts. cbn.
    destruct touches as [|[tx ty] rest]; [discriminate |].
    cbn. eexists. split; reflexivity.
Qed.

Lemma gestureMove_idle_frame g s :
  draggedBox s = None ->
  store (gestureMove g s) = store s /\
  pixels (gestureMove g s) = pixels s /\
  redactionBoxes (gestureMove g s) = redactionBoxes s /\
  detections (gestureMove g s) = detections s /\
  draggedBox (gestureMove g s) = None.
Proof.
  intros Hd. destruct g as [cx cy | touches]; cbn.
  - unfold mousemove. destruct (redactionBoxes s) eqn:Harr;
      [rewrite Harr; repeat split; exact Hd |].
    cbn. rewrite Hd. cbn. rewrite Harr. repeat split; exact Hd.
  - unfold touchmove. rewrite Hd. repeat split; exact Hd.
Qed.

(** X10.  A move changes positions only, and only of the held box: the
    array and the detections stay as they are, every box object keeps its
    width, height, variant and angle, and every object but the held one
    is left untouched. *)
Theorem move_changes_position_only (g : GestureMove) (s : State) :
  let s' := gestureMove g s in
  redactionBoxes s' = redactionBoxes s /\
  detections s' = detections s /\
  draggedBox s' = draggedBox s /\
  (forall a,
     box_width (store s' a) = box_width (store s a) /\
     box_height (store s' a) = box_height (store s a) /\
     box_type (store s' a) = box_type (store s a)) /\
  (forall a, draggedBox s <> Some a -> store s' a = store s a).
Proof.
  cbv zeta. destruct (draggedBox s) as [a|] eqn:Hd.
  - destruct (gestureMove_held g s a Hd) as [-> | [pos ->]];
      [rewrite Hd; repeat split |].
    destruct (dragTo_frame pos a s) as (_ & _ & Hdb & Harr).
    destruct (dragTo_frame_more pos a s) as (_ & _ & Hdet & _).
    split; [exact Harr |]. split; [exact Hdet |].
    split; [now rewrite Hdb |]. split.
    + intros a'. destruct (Nat.eq_dec a' a) as [-> | Hne].
      * rewrite dragTo_anchor. cbv zeta. repeat split.
      * rewrite dragTo_other by exact Hne. repeat split.
    + intros a' Hne. apply dragTo_other. congruence.
  - destruct (gestureMove_idle_frame g s Hd) as (Hst & _ & Harr & Hdet & Hdb).
    rewrite Hst. repeat split; assumption.
Qed.

Lemma movePointer_frame g s s' :
  clientRect s' = clientRect s ->
  canvas_width s' = canvas_width s ->
  canvas_height s' = canvas_height s ->
  movePointer g s' = movePointer g s.
Proof.
  intros Hr Hw Hh. destruct g as [cx cy | touches]; cbn;
    unfold getPointerPos; now rewrite Hr, Hw, Hh.
Qed.

Lemma acts_frame g s s' :
  redactionBoxes s' = redactionBoxes s -> acts g s -> acts g s'.
Proof. intros Harr. destruct g; cbn; [now rewrite Harr | auto]. Qed.

(** X11.  The position of the held box after a move depends on that move
    alone, not on the moves before it: the box follows the pointer, and a
    clamp at the edge of the canvas leaves no trace once the pointer is
    back inside. *)
Theorem move_is_path_independent
    (g1 g2 : GestureMove) (s : State) (a : Address) :
  draggedBox s = Some a ->
  acts g2 s ->
  store (gestureMove g2 (gestureMove g1 s)) a = store (gestureMove g2 s) a.
Proof.
  intros Hd Hacts.
  destruct (gestureMove_held g1 s a Hd) as [-> | [pos1 E1]]; [reflexivity |].
  rewrite E1.
  destruct (dragTo_frame pos1 a s) as (Hw & Hh & Hdb & Harr).
  destruct (dragTo_frame_more pos1 a s) as (Hoff & Hrect & _ & _).
  assert (Hd1 : draggedBox (dragTo pos1 a s) = Some a) by congruence.
  assert (Hacts1 : acts g2 (dragTo pos1 a s))
    by (eapply acts_frame; eauto).
  destruct (gestureMove_pointer g2 s a Hd Hacts) as (pos2 & Hp2 & ->).
  destruct (gestureMove_pointer g2 _ a Hd1 Hacts1) as (pos2' & Hp2' & ->).
  rewrite (movePointer_frame g2 s _ Hrect Hw Hh), Hp2 in Hp2'.
  injection Hp2' as <-.
  rewrite (dragTo_anchor pos2 a (dragTo pos1 a s)). cbv zeta.
  rewrite (dragTo_anchor pos2 a s). cbv zeta.
  rewrite Hw, Hh, Hoff.
  rewrite (dragTo_anchor pos1 a s). cbv zeta.
  unfold anchorRangeX, anchorRangeY, halfDiag.
  cbn [box_width box_height box_type]. reflexivity.
Qed.

Lemma move_is_path_independent_witness :
  let s := draggingPage 1000 1000 smallBar in
  let g1 := MouseMove 5000 (-300) in
  let g2 := MouseMove 300 200 in
  draggedBox s = Some 0%nat /\
  acts g2 s /\
  store (gestureMove g2 (gestureMove g1 s)) 0%nat
  = store (gestureMove g2 s) 0%nat.
Proof.
  intros s g1 g2.
  assert (Hacts : acts g2 s) by (cbn; discriminate).
  exact (conj eq_refl (conj Hacts
           (move_is_path_independent g1 g2 s 0%nat eq_refl Hacts))).
Defined.

Lemma findBoxAt_nonempty x y s a :
  findBoxAt x y s = Some a -> redactionBoxes s <> [].
Proof.
  unfold findBoxAt. intros H Hnil. rewrite Hnil in H. discriminate H.
Qed.

(** A press that finds the box [a]. *)
Lemma grab_found pos grabbing s a :
  findBoxAt (fst pos) (snd pos) s = Some a ->
  let s' := grab pos grabbing s in
  draggedBox s' = Some a /\
  dragOffset s' = (fst pos - box_x (store s a), snd pos - box_y (store s a)) /\
  store s' = store s /\
  redactionBoxes s' = redactionBoxes s /\
  canvas_width s' = canvas_width s /\
  canvas_height s' = canvas_height s /\
  clientRect s' = clientRect s /\
  pixels s' = pixels s.
Proof.
  intros Hfind. unfold grab. cbn. rewrite Hfind.
  destruct (isRotated (store s a)); destruct grabbing; repeat split.
Qed.

Lemma gestureStart_found g s pos a :
  startPointer g s = Some pos ->
  findBoxAt (fst pos) (snd pos) s = Some a ->
  exists grabbing, gestureStart g s = grab pos grabbing s.
Proof.
  intros Hp Hfind. pose proof (findBoxAt_nonempty _ _ _ _ Hfind) as Hne.
  destruct g as [cx cy | touches]; cbn [gestureStart startPointer] in *.
  - unfold mousedown. destruct (redactionBoxes s); [contradiction |].
    rewrite Hp. now exists true.
  - unfold touchstart. destruct (redactionBoxes s); [contradiction |].
    rewrite Hp. now exists false.
Qed.

(** X12.  Pressing on a box and moving translates the box by the
    displacement of the pointer, up to the clamp: after a press at [p]
    that finds a box and a move to [q], the anchor of the box is its
    anchor before the press plus [q - p], clamped to the anchor range of
    the box; its size and variant are unchanged. *)
Theorem press_then_move_translates
    (gs : GestureStart) (gm : GestureMove) (s : State) (a : Address)
    (p q : R * R) :
  startPointer gs s = Some p ->
  findBoxAt (fst p) (snd p) s = Some a ->
  acts gm s ->
  movePointer gm s = Some q ->
  let box := store s a in
  let cw := IZR (canvas_width s) in
  let ch := IZR (canvas_height s) in
  store (gestureMove gm (gestureStart gs s)) a
  = mkBox
      (clamp (fst (anchorRangeX cw box)) (snd (anchorRangeX cw box))
         (box_x box + (fst q - fst p)))
      (clamp (fst (anchorRangeY ch box)) (snd (anchorRangeY ch box))
         (box_y box + (snd q - snd p)))
      (box_width box) (box_height box) (box_type box).
Proof.
  intros Hp Hfind Hacts Hq. cbv zeta.
  destruct (gestureStart_found gs s p a Hp Hfind) as [grabbing ->].
  destruct (grab_found p grabbing s a Hfind)
    as (Hd & Hoff & Hst & Harr & Hw & Hh & Hrect & _).
  cbv zeta in *.
  assert (Hacts1 : acts gm (grab p grabbing s))
    by (eapply acts_frame; eauto).
  destruct (gestureMove_pointer gm _ a Hd Hacts1) as (q' & Hq' & ->).
  rewrite (movePointer_frame gm s _ Hrect Hw Hh), Hq in Hq'.
  injection Hq' as <-.
  rewrite dragTo_anchor. cbv zeta. rewrite Hw, Hh, Hoff, Hst.
  cbn [fst snd]. f_equal; f_equal; ring.
Qed.

Lemma clamp_inside lo hi v : lo <= v <= hi -> clamp lo hi v = v.
Proof.
  intros [H1 H2]. unfold clamp, Math.max, Math.min, Rmax, Rmin.
  destruct (Rle_dec hi v); destruct (Rle_dec lo _); lra.
Qed.

Lemma clamp_idempotent lo hi v :
  clamp lo hi (clamp lo hi v) = clamp lo hi v.
Proof.
  destruct (Rle_dec lo hi) as [Hle | Hgt].
  - apply clamp_inside. now apply clamp_between.
  - rewrite !clamp_empty by lra. reflexivity.
Qed.

(** X13.  The clamp block is idempotent: run twice on the held box it
    leaves every box object as one run does, empty clamp intervals
    included. *)
Theorem clamp_block_idempotent (a a' : Address) (s : State) :
  store (clampDragged a (clampDragged a s)) a'
  = store (clampDragged a s) a'.
Proof.
  destruct (Nat.eq_dec a' a) as [-> | Hne].
  - rewrite (clampDragged_store a (clampDragged a s)).
    destruct (clampDragged_frame a s) as (-> & -> & _).
    rewrite (clampDragged_store a s).
    destruct (box_type (store s a)); unfold halfDiag;
      cbn [box_x box_y box_width box_height box_type];
      now rewrite !clamp_idempotent.
  - now rewrite !clampDragged_other by exact Hne.
Qed.

(** X14.  A held standard box of non-negative size that fits on the
    canvas is painted entirely inside the canvas after every move that
    the handler acts on. *)
Theorem standard_drag_stays_inside
    (g : GestureMove) (s : State) (a : Address) :
  draggedBox s = Some a ->
  box_type (store s a) = standard ->
  nonNegativeSize (store s a) ->
  box_width (store s a) <= IZR (canvas_width s) ->
  box_height (store s a) <= IZR (canvas_height s) ->
  acts g s ->
  forall px py,
    covers (fillOf (store (gestureMove g s) a)) px py ->
    onCanvas (gestureMove g s) px py.
Proof.
  intros Hd Ht [Hw0 Hh0] Hw Hh Hacts px py Hc.
  destruct (gestureMove_acts g s a Hd Hacts) as [pos E]. rewrite E in *.
  destruct (dragTo_frame pos a s) as (Hcw & Hch & _ & _).
  unfold onCanvas. rewrite Hcw, Hch.
  rewrite dragTo_anchor in Hc. cbv zeta in Hc.
  unfold anchorRangeX, anchorRangeY in Hc. rewrite Ht in Hc.
  cbn [fst snd] in Hc.
  apply covers_standard in Hc; [| reflexivity].
  cbn [box_x box_y box_width box_height] in Hc.
  rewrite !interval_nonneg in Hc by assumption.
  pose proof (clamp_between 0 (IZR (canvas_width s) - box_width (store s a))
                (fst pos - fst (dragOffset s)) ltac:(lra)).
  pose proof (clamp_between 0 (IZR (canvas_height s) - box_height (store s a))
                (snd pos - snd (dragOffset s)) ltac:(lra)).
  lra.
Qed.

(** X15.  Every event that ends a gesture drops the held box, and from
    then on no move event changes a box object, the array or the canvas
    content. *)
Theorem release_ends_the_drag (e : GestureEnd) (g : GestureMove) (s : State) :
  let s' := gestureEnd e s in
  draggedBox s' = None /\
  store (gestureMove g s') = store s /\
  redactionBoxes (gestureMove g s') = redactionBoxes s /\
  pixels (gestureMove g s') = pixels s /\
  draggedBox (gestureMove g s') = None.
Proof.
  cbv zeta.
  assert (Hd : draggedBox (gestureEnd e s) = None) by (destruct e; reflexivity).
  destruct (gestureMove_idle_frame g _ Hd) as (-> & -> & -> & _ & ->).
  destruct e; repeat split.
Qed.

Lemma findBoxAt_some_in x y s a :
  findBoxAt x y s = Some a ->
  In a (redactionBoxes s) /\ hitTest x y (store s a) = true.
Proof.
  unfold findBoxAt. intros H.
  apply findBoxFrom_some in H as (i & _ & Hnth & Hhit & _).
  split; [eapply nth_error_In; eauto | exact Hhit].
Qed.

Lemma findBoxAt_none_all x y s :
  findBoxAt x y s = None ->
  forall a, In a (redactionBoxes s) -> hitTest x y (store s a) = false.
Proof.
  unfold findBoxAt. intros H a Hin.
  destruct (In_nth_error _ _ Hin) as [i Hi].
  eapply (proj1 (findBoxFrom_none x y s _) H i a); [| exact Hi].
  apply nth_error_Some. congruence.
Qed.

(** X16.  With no box held and a non-empty array, a mouse move only
    sets the cursor: to "grab" exactly when some box of the array
    contains the pointer, to "default" otherwise. *)
Theorem hover_shows_grab_cursor (clientX clientY : R) (s : State)
    (pos : R * R) :
  draggedBox s = None ->
  redactionBoxes s <> [] ->
  getPointerPos (Mouse clientX clientY) s = Some pos ->
  let s' := mousemove clientX clientY s in
  (cursor s' = "grab"%string <->
   exists a, In a (redactionBoxes s) /\
             hitTest (fst pos) (snd pos) (store s a) = true) /\
  (cursor s' = "grab"%string \/ cursor s' = "default"%string) /\
  s' = set_cursor (cursor s') s.
Proof.
  intros Hd Hne Hp. cbv zeta. unfold mousemove.
  destruct (redactionBoxes s) as [|a0 rest] eqn:Harr; [contradiction |].
  rewrite Hp, Hd. rewrite <- Harr in *.
  destruct (findBoxAt (fst pos) (snd pos) s) as [a|] eqn:Hfind; cbn.
  - split; [| split; [now left | reflexivity]].
    split; [intros _ | reflexivity].
    exists a. now apply findBoxAt_some_in.
  - split; [| split; [now right | reflexivity]].
    split; [discriminate |].
    intros (a & Hin & Hhit).
    rewrite (findBoxAt_none_all _ _ _ Hfind a Hin) in Hhit. discriminate.
Qed.

Lemma press_then_move_translates_witness :
  let s := overlapPage in
  let p := ((7 - 0) * (100 / 100), (7 - 0) * (100 / 100)) in
  let q := ((30 - 0) * (100 / 100), (95 - 0) * (100 / 100)) in
  startPointer (MouseDown 7 7) s = Some p /\
  findBoxAt (fst p) (snd p) s = Some 1%nat /\
  acts (MouseMove 30 95) s /\
  movePointer (MouseMove 30 95) s = Some q /\
  store (gestureMove (MouseMove 30 95) (gestureStart (MouseDown 7 7) s)) 1%nat
  = mkBox (clamp 0 (100 - 10) (5 + (fst q - fst p)))
      (clamp 0 (100 - 10) (5 + (snd q - snd p))) 10 10 standard.
Proof.
  intros s p q.
  assert (Hfind : findBoxAt (fst p) (snd p) s = Some 1%nat).
  { unfold findBoxAt, s, overlapPage, p.
    cbn [findBoxFrom redactionBoxes store List.length nth_error Nat.eqb
         fst snd].
    unfold hitTest. cbn [box_type box_x box_y box_width box_height].
    decide_Rleb; reflexivity. }
  assert (Hacts : acts (MouseMove 30 95) s) by (cbn; discriminate).
  exact (conj eq_refl (conj Hfind (conj Hacts (conj eq_refl
           (press_then_move_translates (MouseDown 7 7) (MouseMove 30 95)
              s 1%nat p q eq_refl Hfind Hacts eq_refl))))).
Defined.

Lemma standard_drag_stays_inside_witness :
  let s := draggingPage 1000 1000 wideStrip in
  let g := MouseMove 5000 (-300) in
  draggedBox s = Some 0%nat /\
  box_type (store s 0%nat) = standard /\
  nonNegativeSize (store s 0%nat) /\
  box_width (store s 0%nat) <= IZR (canvas_width s) /\
  box_height (store s 0%nat) <= IZR (canvas_height s) /\
  acts g s /\
  forall px py,
    covers (fillOf (store (gestureMove g s) 0%nat)) px py ->
    onCanvas (gestureMove g s) px py.
Proof.
  intros s g.
  assert (Hsize : nonNegativeSize (store s 0%nat))
    by (unfold nonNegativeSize; cbn; lra).
  assert (Hw : box_width (store s 0%nat) <= IZR (canvas_width s))
    by (cbn; lra).
  assert (Hh : box_height (store s 0%nat) <= IZR (canvas_height s))
    by (cbn; lra).
  assert (Hacts : acts g s) by (cbn; discriminate).
  exact (conj eq_refl (conj eq_refl (conj Hsize (conj Hw (conj Hh
           (conj Hacts
              (standard_drag_stays_inside g s 0%nat eq_refl eq_refl
                 Hsize Hw Hh Hacts))))))).
Defined.

Lemma hover_shows_grab_cursor_witness :
  let s := overlapPage in
  let pos := ((7 - 0) * (100 / 100), (7 - 0) * (100 / 100)) in
  draggedBox s = None /\
  redactionBoxes s <> [] /\
  getPointerPos (Mouse 7 7) s = Some pos /\
  (cursor (mousemove 7 7 s) = "grab"%string <->
   exists a, In a (redactionBoxes s) /\
             hitTest (fst pos) (snd pos) (store s a) = true).
Proof.
  intros s pos.
  assert (Hne : redactionBoxes s <> []) by discriminate.
  exact (conj eq_refl (conj Hne (conj eq_refl
           (proj1 (hover_shows_grab_cursor 7 7 s pos eq_refl Hne eq_refl))))).
Defined.

Lemma scale_within d r w :
  0 < r -> 0 <= w -> 0 <= d <= r -> 0 <= d * (w / r) <= w.
Proof.
  intros Hr Hw [Hd0 Hd1].
  pose proof (Rinv_0_lt_compat r Hr) as Hk.
  assert (Hone : r * / r = 1) by (apply Rinv_r; lra).
  unfold Rdiv. set (k := / r) in *.
  assert (Hu0 : 0 <= d * k) by (apply Rmult_le_pos; lra).
  assert (Hu1 : d * k <= 1).
  { rewrite <- Hone. apply Rmult_le_compat_r; lra. }
  replace (d * (w * k)) with (w * (d * k)) by ring.
  split; [apply Rmult_le_pos; lra |].
  rewrite <- (Rmult_1_r w) at 2. apply Rmult_le_compat_l; lra.
Qed.

(** X17.  [getPointerPos] maps the displayed rectangle of the canvas onto
    the canvas: its corners go to the corners, every client point inside
    it goes to a point on the canvas, and of a touch list only the first
    contact is read. *)
Theorem pointer_maps_display_onto_canvas (s : State) (clientX clientY : R) :
  0 < rect_width (clientRect s) ->
  0 < rect_height (clientRect s) ->
  (0 <= canvas_width s)%Z ->
  (0 <= canvas_height s)%Z ->
  rect_left (clientRect s) <= clientX
    <= rect_left (clientRect s) + rect_width (clientRect s) ->
  rect_top (clientRect s) <= clientY
    <= rect_top (clientRect s) + rect_height (clientRect s) ->
  (exists pos,
     getPointerPos (Mouse clientX clientY) s = Some pos /\
     onCanvas s (fst pos) (snd pos)) /\
  getPointerPos (Mouse (rect_left (clientRect s)) (rect_top (clientRect s))) s
  = Some (0, 0) /\
  getPointerPos
    (Mouse (rect_left (clientRect s) + rect_width (clientRect s))
       (rect_top (clientRect s) + rect_height (clientRect s))) s
  = Some (IZR (canvas_width s), IZR (canvas_height s)) /\
  (forall rest,
     getPointerPos (Touches ((clientX, clientY) :: rest)) s
     = getPointerPos (Mouse clientX clientY) s).
Proof.
  intros Hrw Hrh Hcw Hch Hx Hy.
  apply IZR_le in Hcw, Hch.
  set (W := IZR (canvas_width s)) in *. set (H := IZR (canvas_height s)) in *.
  set (l := rect_left (clientRect s)) in *.
  set (t := rect_top (clientRect s)) in *.
  set (rw := rect_width (clientRect s)) in *.
  set (rh := rect_height (clientRect s)) in *.
  assert (Hfx : forall c, l <= c <= l + rw -> 0 <= (c - l) * (W / rw) <= W).
  { intros c Hc.
    apply (scale_within (c - l) rw W); lra. }
  assert (Hfy : forall c, t <= c <= t + rh -> 0 <= (c - t) * (H / rh) <= H).
  { intros c Hc.
    apply (scale_within (c - t) rh H); lra. }
  unfold getPointerPos. fold W H l t rw rh.
  split; [| split; [| split]].
  - eexists. split; [reflexivity |]. unfold onCanvas. cbn [fst snd].
    fold W H. split; [apply Hfx | apply Hfy]; assumption.
  - f_equal. f_equal; field; lra.
  - f_equal. f_equal; field; lra.
  - reflexivity.
Qed.

Lemma pointer_maps_display_onto_canvas_witness :
  let s := overlapPage in
  0 < rect_width (clientRect s) /\
  0 < rect_height (clientRect s) /\
  (exists pos,
     getPointerPos (Mouse 7 7) s = Some pos /\
     onCanvas s (fst pos) (snd pos)).
Proof.
  intros s.
  assert (Hrw : 0 < rect_width (clientRect s)) by (cbn; lra).
  assert (Hrh : 0 < rect_height (clientRect s)) by (cbn; lra).
  assert (Hcw : (0 <= canvas_width s)%Z) by (cbn; lia).
  assert (Hch : (0 <= canvas_height s)%Z) by (cbn; lia).
  assert (Hx : rect_left (clientRect s) <= 7
               <= rect_left (clientRect s) + rect_width (clientRect s))
    by (cbn; lra).
  assert (Hy : rect_top (clientRect s) <= 7
               <= rect_top (clientRect s) + rect_height (clientRect s))
    by (cbn; lra).
  exact (conj Hrw (conj Hrh
           (proj1 (pointer_maps_display_onto_canvas s 7 7
                     Hrw Hrh Hcw Hch Hx Hy)))).
Defined.

(** ** The detect button, continued *)

Lemma boxes_length s : List.length (boxes s) = List.length (redactionBoxes s).
Proof. unfold boxes. apply length_map. Qed.

(** Reading the fields of a state built by the setters. *)
Ltac project_state :=
  unfold drawRedactionBoxes, putImageData;
  unfold setStatus, set_downloadDisabled, set_detections, set_pixels,
    set_redactionBoxes, set_draggedBox, set_cursor;
  cbn [detector canvas_width canvas_height clientRect pixels cursor
       originalImageData detections store fresh redactionBoxes draggedBox
       dragOffset status downloadDisabled debugMode base drawn fst snd app].

(** X18.  A pass that finds detections of which at least one yields a
    box replaces the detections and the box set, repaints the saved
    image with the new boxes over it, enables the download and reports
    the number of detections (not of boxes) without error. *)
Theorem successful_detection_repaints
    (ds : list Detection) (s : State) (img : ImageData) :
  detector s = true ->
  canvas_width s <> 0%Z ->
  canvas_height s <> 0%Z ->
  originalImageData s = Some img ->
  compute ds s <> [] ->
  let s' := detectClick (Resolved (Some ds)) s in
  detections s' = ds /\
  boxes s' = compute ds s /\
  pixels s'
  = mkSurface (Some img) (flat_map (drawBox (debugMode s)) (compute ds s)) /\
  downloadDisabled s' = false /\
  status s' = (redactedMessage (List.length ds), false).
Proof.
  intros Hdet Hw Hh Himg Hboxes. cbv zeta.
  assert (Hds : ds <> []) by (intros ->; now apply Hboxes).
  unfold detectClick. rewrite Hdet. cbn [negb].
  apply Z.eqb_neq in Hw, Hh. rewrite Hw, Hh. cbn [orb].
  unfold detectTry.
  cbn [detections originalImageData setStatus set_detections].
  destruct ds as [|d ds']; [contradiction |]. cbn [List.length Nat.eqb].
  rewrite Himg.
  set (s3 := putImageData img _).
  assert (Hcomp : boxes (calculateRedactionBoxes s3) = compute (d :: ds') s).
  { rewrite boxes_calculate, compute_flat_map. reflexivity. }
  destruct (calculate_frame s3)
    as (Hd4 & Hp4 & _ & _ & _ & Hdbg4 & _ & _ & _ & _).
  cbv zeta in *.
  destruct (List.length (redactionBoxes (calculateRedactionBoxes s3)) =? 0)%nat
    eqn:Hlen.
  - apply Nat.eqb_eq in Hlen. rewrite <- boxes_length, Hcomp in Hlen.
    apply length_zero_iff_nil in Hlen. contradiction.
  - unfold boxes at 1. project_state.
    fold (boxes (calculateRedactionBoxes s3)).
    rewrite Hd4, Hcomp, Hp4, Hdbg4. subst s3. project_state.
    repeat split.
Qed.

Lemma successful_detection_repaints_witness :
  let s := loadedPage 1000 1000 in
  let ds := [oneKeypoint; faceOnly] in
  detector s = true /\
  canvas_width s <> 0%Z /\
  canvas_height s <> 0%Z /\
  originalImageData s = Some 0%nat /\
  compute ds s <> [] /\
  boxes (detectClick (Resolved (Some ds)) s) = compute ds s /\
  status (detectClick (Resolved (Some ds)) s)
  = ("Redacted 2 faces"%string, false).
Proof.
  intros s ds.
  assert (Hw : canvas_width s <> 0%Z) by discriminate.
  assert (Hh : canvas_height s <> 0%Z) by discriminate.
  assert (Hc : compute ds s <> []) by discriminate.
  destruct (successful_detection_repaints ds s 0%nat eq_refl Hw Hh eq_refl Hc)
    as (_ & Hb & _ & _ & Hst).
  exact (conj eq_refl (conj Hw (conj Hh (conj eq_refl (conj Hc
           (conj Hb Hst)))))).
Defined.

(** X19.  A pass whose detections are all dropped by the calculator
    reports the error "Error creating redaction boxes"; by then the box
    set is empty and the canvas shows the saved image without any box,
    while the download gate is left as it was. *)
Theorem fruitless_detection_clears_render
    (ds : list Detection) (s : State) (img : ImageData) :
  detector s = true ->
  canvas_width s <> 0%Z ->
  canvas_height s <> 0%Z ->
  originalImageData s = Some img ->
  ds <> [] ->
  compute ds s = [] ->
  let s' := detectClick (Resolved (Some ds)) s in
  status s' = ("Error creating redaction boxes"%string, true) /\
  redactionBoxes s' = [] /\
  pixels s' = mkSurface (Some img) [] /\
  detections s' = ds /\
  downloadDisabled s' = downloadDisabled s.
Proof.
  intros Hdet Hw Hh Himg Hds Hboxes. cbv zeta.
  unfold detectClick. rewrite Hdet. cbn [negb].
  apply Z.eqb_neq in Hw, Hh. rewrite Hw, Hh. cbn [orb].
  unfold detectTry.
  cbn [detections originalImageData setStatus set_detections].
  destruct ds as [|d ds']; [contradiction |]. cbn [List.length Nat.eqb].
  rewrite Himg.
  set (s3 := putImageData img _).
  assert (Hcomp : boxes (calculateRedactionBoxes s3) = compute (d :: ds') s).
  { rewrite boxes_calculate, compute_flat_map. reflexivity. }
  destruct (calculate_frame s3)
    as (Hd4 & Hp4 & _ & _ & _ & _ & _ & Hdl4 & _ & _).
  cbv zeta in *.
  assert (Hnil : redactionBoxes (calculateRedactionBoxes s3) = []).
  { apply length_zero_iff_nil. rewrite <- boxes_length, Hcomp, Hboxes.
    reflexivity. }
  rewrite Hnil. cbn [List.length Nat.eqb]. project_state.
  rewrite Hnil, Hd4, Hp4, Hdl4. subst s3. project_state. repeat split.
Qed.

Lemma fruitless_detection_clears_render_witness :
  let s := redactedPage in
  let ds := [oneKeypoint] in
  detector s = true /\
  canvas_width s <> 0%Z /\
  canvas_height s <> 0%Z /\
  originalImageData s = Some 0%nat /\
  ds <> [] /\
  compute ds s = [] /\
  status (detectClick (Resolved (Some ds)) s)
  = ("Error creating redaction boxes"%string, true) /\
  pixels (detectClick (Resolved (Some ds)) s) = mkSurface (Some 0%nat) [] /\
  downloadDisabled (detectClick (Resolved (Some ds)) s) = false.
Proof.
  intros s ds.
  assert (Hw : canvas_width s <> 0%Z) by discriminate.
  assert (Hh : canvas_height s <> 0%Z) by discriminate.
  assert (Hds : ds <> []) by discriminate.
  destruct (fruitless_detection_clears_render ds s 0%nat eq_refl Hw Hh
              eq_refl Hds eq_refl) as (Hst & _ & Hp & _ & Hdl).
  exact (conj eq_refl (conj Hw (conj Hh (conj eq_refl (conj Hds
           (conj eq_refl (conj Hst (conj Hp Hdl)))))))).
Defined.

(** ** Reset, debug toggle and image load *)

Lemma dragTo_pixels_blank pos a s :
  redactionBoxes s = [] -> drawn (pixels s) = [] ->
  drawn (pixels (dragTo pos a s)) = [].
Proof.
  intros Harr Hdrawn. unfold dragTo. cbv zeta.
  set (t := mutate a _ (mutate a _ s)).
  assert (Hb : boxes (clampDragged a t) = []).
  { unfold boxes. destruct (clampDragged_frame a t) as (_ & _ & _ & ->).
    subst t. cbn [redactionBoxes mutate set_store]. now rewrite Harr. }
  assert (Hp : pixels (clampDragged a t) = pixels s).
  { unfold clampDragged. destruct (box_type (store t a)); reflexivity. }
  unfold redrawCanvas.
  destruct (originalImageData (clampDragged a t));
    unfold drawRedactionBoxes, putImageData, set_pixels;
    cbn [pixels drawn base]; unfold boxes in *;
    cbn [redactionBoxes store]; rewrite Hb.
  - reflexivity.
  - rewrite Hp, Hdrawn. reflexivity.
Qed.

(** X20.  A reset empties the detections and the box set, disables the
    download, shows the saved image alone (a blank canvas when there is
    none) and reports "Ready".  After it a press does nothing, no move
    paints anything, even with a box still held from before, and a
    second reset changes nothing. *)
Theorem reset_clears_the_page (s : State) :
  let s' := resetState s in
  detections s' = [] /\
  redactionBoxes s' = [] /\
  pixels s' = mkSurface (originalImageData s) [] /\
  downloadDisabled s' = true /\
  status s' = ("Ready"%string, false) /\
  (forall g, gestureStart g s' = s') /\
  (forall g, drawn (pixels (gestureMove g s')) = [] /\
             redactionBoxes (gestureMove g s') = []) /\
  resetState s' = s'.
Proof.
  cbv zeta.
  assert (Hp : pixels (resetState s) = mkSurface (originalImageData s) []).
  { unfold resetState. cbv zeta. cbn [originalImageData set_redactionBoxes
      set_detections]. destruct (originalImageData s); reflexivity. }
  assert (Harr : redactionBoxes (resetState s) = []).
  { unfold resetState. cbv zeta. cbn [originalImageData set_redactionBoxes
      set_detections]. destruct (originalImageData s); reflexivity. }
  split; [| split; [exact Harr | split; [exact Hp |]]].
  { unfold resetState. cbv zeta. cbn [originalImageData set_redactionBoxes
      set_detections]. destruct (originalImageData s); reflexivity. }
  split; [reflexivity |]. split; [reflexivity |].
  split; [| split].
  - intros [cx cy | touches]; cbn [gestureStart];
      unfold mousedown, touchstart; now rewrite Harr.
  - intros g. destruct (draggedBox (resetState s)) as [a|] eqn:Hd.
    + destruct (gestureMove_held g _ a Hd) as [-> | [pos ->]].
      * rewrite Hp. now split.
      * split; [apply dragTo_pixels_blank; [exact Harr | now rewrite Hp] |].
        destruct (dragTo_frame pos a (resetState s)) as (_ & _ & _ & ->).
        exact Harr.
    + destruct (gestureMove_idle_frame g _ Hd) as (_ & -> & -> & _).
      rewrite Hp. now split.
  - unfold resetState. cbv zeta.
    cbn [originalImageData set_redactionBoxes set_detections].
    destruct (originalImageData s) eqn:Himg; cbn; rewrite ?Himg; reflexivity.
Qed.

Lemma redrawCanvas_with_image s img :
  originalImageData s = Some img ->
  redrawCanvas s
  = set_pixels
      (mkSurface (Some img) (flat_map (drawBox (debugMode s)) (boxes s))) s.
Proof.
  intros Himg. unfold redrawCanvas. rewrite Himg. reflexivity.
Qed.

Lemma repaint_forgets (P Q : Surface) s :
  set_pixels Q
    (set_debugMode (debugMode s)
       (set_pixels P (set_debugMode (negb (debugMode s)) s)))
  = set_pixels Q s.
Proof. destruct s; reflexivity. Qed.

Lemma set_debugMode_twice s :
  set_debugMode (negb (negb (debugMode s))) s = s.
Proof. rewrite negb_involutive. destruct s; reflexivity. Qed.

(** X21.  Pressing [d] twice restores the page: with no box nothing but
    the flag ever changes and the second press undoes the first; with
    boxes and a saved image the page is the one a plain repaint gives.
    One press flips the flag and changes neither a box nor the array, [D]
    acts as [d], and any other key does nothing. *)
Theorem debug_toggle_round_trip (s : State) :
  (redactionBoxes s = [] -> keydown "d" (keydown "d" s) = s) /\
  (forall img, originalImageData s = Some img -> redactionBoxes s <> [] ->
     keydown "d" (keydown "d" s) = redrawCanvas s) /\
  debugMode (keydown "d" s) = negb (debugMode s) /\
  store (keydown "d" s) = store s /\
  redactionBoxes (keydown "d" s) = redactionBoxes s /\
  keydown "D" s = keydown "d" s /\
  (forall key, key <> "d"%string -> key <> "D"%string -> keydown key s = s).
Proof.
  split; [| split; [| split; [| split; [| split; [| split]]]]].
  - intros Harr. unfold keydown. cbn [String.eqb Ascii.eqb Bool.eqb orb].
    cbn [redactionBoxes set_debugMode]. rewrite Harr. cbn [List.length Nat.ltb Nat.leb].
    cbn [redactionBoxes set_debugMode]. rewrite Harr. cbn [List.length Nat.ltb Nat.leb].
    cbn [debugMode set_debugMode].
    rewrite negb_involutive. destruct s; reflexivity.
  - intros img Himg Hne.
    assert (Hlen : (0 <? List.length (redactionBoxes s))%nat = true).
    { destruct (redactionBoxes s); [contradiction | reflexivity]. }
    set (t := set_debugMode (negb (debugMode s)) s).
    assert (E1 : keydown "d" s = redrawCanvas t).
    { unfold keydown. cbn [String.eqb Ascii.eqb Bool.eqb orb].
      fold t. change (redactionBoxes t) with (redactionBoxes s).
      now rewrite Hlen. }
    rewrite E1.
    rewrite (redrawCanvas_with_image t img Himg).
    set (P := mkSurface (Some img) _).
    unfold keydown. cbn [String.eqb Ascii.eqb Bool.eqb orb].
    change (redactionBoxes (set_debugMode _ (set_pixels P t)))
      with (redactionBoxes s).
    rewrite Hlen.
    rewrite (redrawCanvas_with_image s img Himg).
    rewrite (redrawCanvas_with_image
               (set_debugMode (negb (debugMode (set_pixels P t)))
                  (set_pixels P t)) img Himg).
    change (debugMode (set_pixels P t)) with (negb (debugMode s)).
    rewrite negb_involutive.
    change (debugMode (set_debugMode (debugMode s) (set_pixels P t)))
      with (debugMode s).
    change (boxes (set_debugMode (debugMode s) (set_pixels P t)))
      with (boxes s).
    subst t. apply repaint_forgets.
  - unfold keydown. cbn [String.eqb Ascii.eqb Bool.eqb orb].
    destruct (0 <? _)%nat; [| reflexivity].
    now destruct (redrawCanvas_frame_more (set_debugMode (negb (debugMode s)) s))
      as (_ & _ & _ & _ & ->).
  - unfold keydown. cbn [String.eqb Ascii.eqb Bool.eqb orb].
    destruct (0 <? _)%nat; [| reflexivity].
    now destruct (redrawCanvas_frame (set_debugMode (negb (debugMode s)) s))
      as (-> & _).
  - unfold keydown. cbn [String.eqb Ascii.eqb Bool.eqb orb].
    destruct (0 <? _)%nat; [| reflexivity].
    now destruct (redrawCanvas_frame (set_debugMode (negb (debugMode s)) s))
      as (_ & _ & _ & _ & ->).
  - reflexivity.
  - intros key Hd HD. unfold keydown.
    apply String.eqb_neq in Hd, HD. now rewrite Hd, HD.
Qed.

Lemma round_integer n : round (IZR n) = n.
Proof.
  unfold round. symmetry. apply Int_part_spec. lra.
Qed.

Lemma round_le v n : v <= IZR n -> (round v <= n)%Z.
Proof.
  intros Hv. unfold round.
  destruct (base_Int_part (v + 1 / 2)) as [Hlo _].
  apply Z.lt_succ_r. apply lt_IZR. rewrite succ_IZR. lra.
Qed.

Lemma round_nonneg v : 0 <= v -> (0 <= round v)%Z.
Proof.
  intros Hv. unfold round.
  destruct (base_Int_part (v + 1 / 2)) as [_ Hhi].
  assert (H : (-1 < Int_part (v + 1 / 2))%Z) by (apply lt_IZR; lra).
  lia.
Qed.

(** The factor by which a loaded image is scaled. *)
Lemma scale_cases m :
  0 < m ->
  (m <= 4096 /\ Math.min 1 (4096 / m) = 1) \/
  (4096 < m /\ Math.min 1 (4096 / m) = 4096 / m /\ 0 < 4096 / m < 1).
Proof.
  intros Hm. unfold Math.min, Rmin.
  destruct (Rle_dec m 4096) as [Hle | Hgt].
  - left. split; [exact Hle |].
    assert (1 <= 4096 / m).
    { apply (Rmult_le_reg_r m); [exact Hm |].
      replace (4096 / m * m) with 4096 by (field; lra). lra. }
    destruct (Rle_dec 1 (4096 / m)); [reflexivity | lra].
  - right. assert (Hlt : 4096 / m < 1).
    { apply (Rmult_lt_reg_r m); [exact Hm |].
      replace (4096 / m * m) with 4096 by (field; lra). lra. }
    assert (Hpos : 0 < 4096 / m) by (apply Rdiv_lt_0_compat; lra).
    split; [lra |]. split; [| lra].
    destruct (Rle_dec 1 (4096 / m)); [lra | reflexivity].
Qed.

Lemma fitted_side n m :
  (0 < n)%Z -> IZR n <= m ->
  let side := round (IZR n * Math.min 1 (4096 / m)) in
  (0 <= side <= 4096)%Z /\ (side <= n)%Z /\
  (m <= 4096 -> side = n) /\
  (4096 < m -> IZR n = m -> side = 4096%Z).
Proof.
  intros Hn Hnm. cbv zeta.
  assert (Hn0 : 0 < IZR n) by (apply IZR_lt in Hn; exact Hn).
  assert (Hm : 0 < m) by lra.
  destruct (scale_cases m Hm) as [[Hle ->] | (Hgt & -> & Hs0 & Hs1)].
  - rewrite Rmult_1_r, round_integer.
    repeat split; try lia; try lra.
    apply le_IZR. lra.
  - assert (Hx : 0 <= IZR n * (4096 / m) <= 4096).
    { split; [apply Rmult_le_pos; lra |].
      replace (IZR n * (4096 / m)) with (4096 * (IZR n / m)) by (field; lra).
      assert (IZR n / m <= 1).
      { apply (Rmult_le_reg_r m); [exact Hm |].
        replace (IZR n / m * m) with (IZR n) by (field; lra). lra. }
      nra. }
    repeat split.
    + apply round_nonneg. lra.
    + apply round_le. lra.
    + apply round_le. nra.
    + lra.
    + intros _ Heq. rewrite Heq.
      replace (m * (4096 / m)) with 4096 by (field; lra).
      apply round_integer.
Qed.


(** X22.  The canvas size chosen for a loaded image of positive natural
    size never exceeds 4096 on either side and never exceeds the natural
    size; an image that already fits keeps its size, and the longer side
    of one that does not becomes exactly 4096. *)
Theorem fitted_size_bounds (naturalWidth naturalHeight : Z) :
  (0 < naturalWidth)%Z -> (0 < naturalHeight)%Z ->
  let w := fst (fittedSize naturalWidth naturalHeight) in
  let h := snd (fittedSize naturalWidth naturalHeight) in
  (0 <= w <= 4096 /\ 0 <= h <= 4096 /\
   w <= naturalWidth /\ h <= naturalHeight)%Z /\
  ((naturalWidth <= 4096 /\ naturalHeight <= 4096)%Z ->
   w = naturalWidth /\ h = naturalHeight) /\
  ((4096 < naturalWidth /\ naturalHeight <= naturalWidth)%Z ->
   w = 4096%Z) /\
  ((4096 < naturalHeight /\ naturalWidth <= naturalHeight)%Z ->
   h = 4096%Z).
Proof.
  intros Hw Hh. cbv zeta. unfold fittedSize. cbv zeta. cbn [fst snd].
  set (m := Math.max (IZR naturalWidth) (IZR naturalHeight)).
  assert (Hmw : IZR naturalWidth <= m) by (subst m; apply Rmax_l).
  assert (Hmh : IZR naturalHeight <= m) by (subst m; apply Rmax_r).
  destruct (fitted_side naturalWidth m Hw Hmw) as (Hw1 & Hw2 & Hw3 & Hw4).
  destruct (fitted_side naturalHeight m Hh Hmh) as (Hh1 & Hh2 & Hh3 & Hh4).
  cbv zeta in *.
  split; [repeat split; lia |]. split; [| split].
  - intros [Hnw Hnh].
    assert (Hm : m <= 4096).
    { subst m. apply Rmax_lub; apply IZR_le; assumption. }
    split; [now apply Hw3 | now apply Hh3].
  - intros [Hbig Hle]. apply Hw4.
    + apply IZR_lt in Hbig. lra.
    + subst m. apply IZR_le in Hle. unfold Math.max, Rmax.
      destruct (Rle_dec (IZR naturalWidth) (IZR naturalHeight)); lra.
  - intros [Hbig Hle]. apply Hh4.
    + apply IZR_lt in Hbig. lra.
    + subst m. apply IZR_le in Hle. unfold Math.max, Rmax.
      destruct (Rle_dec (IZR naturalWidth) (IZR naturalHeight)); lra.
Qed.

Lemma fitted_size_bounds_witness :
  (0 < 8192)%Z /\ (0 < 6000)%Z /\
  fst (fittedSize 8192 6000) = 4096%Z /\
  (0 <= snd (fittedSize 8192 6000) <= 4096)%Z.
Proof.
  assert (Hw : (0 < 8192)%Z) by lia. assert (Hh : (0 < 6000)%Z) by lia.
  destruct (fitted_size_bounds 8192 6000 Hw Hh)
    as ((_ & Hb & _) & _ & Hlong & _).
  refine (conj Hw (conj Hh (conj (Hlong _) Hb))). lia.
Defined.

(** A very thin image: its shorter side rounds to nothing. *)
Example thin_image_has_no_height : fittedSize 8193 1 = (4096, 0)%Z.
Proof.
  unfold fittedSize. cbv zeta.
  assert (Hm : Math.max 8193 1 = 8193).
  { unfold Math.max, Rmax. destruct (Rle_dec 8193 1); lra. }
  rewrite Hm.
  assert (Hs : Math.min 1 (4096 / 8193) = 4096 / 8193).
  { unfold Math.min, Rmin. destruct (Rle_dec 1 (4096 / 8193)); lra. }
  rewrite Hs. f_equal.
  - replace (8193 * (4096 / 8193)) with (IZR 4096) by (simpl; lra).
    apply round_integer.
  - unfold round. symmetry. apply Int_part_spec. simpl. lra.
Qed.



(** ** Failure of a detection pass *)

(** No handler but a completed image load writes the saved buffer. *)
Lemma detectClick_buffer r s :
  originalImageData (detectClick r s) = originalImageData s.
Proof.
  unfold detectClick. destruct (detector s); cbn [negb]; [| reflexivity].
  destruct ((canvas_width s =? 0)%Z || (canvas_height s =? 0)%Z);
    [reflexivity |].
  unfold detectTry. destruct r as [|found]; [reflexivity |].
  cbn [detections originalImageData setStatus set_detections].
  destruct (List.length _ =? 0)%nat; [reflexivity |].
  destruct (originalImageData s) as [img|] eqn:Himg;
    [| cbn [originalImageData setStatus]; exact Himg].
  set (s3 := putImageData img _).
  destruct (calculate_frame s3) as (_ & _ & _ & _ & Ho & _).
  cbv zeta in Ho.
  destruct (List.length (redactionBoxes (calculateRedactionBoxes s3)) =? 0)%nat;
    project_state; rewrite Ho; subst s3; project_state; exact Himg.
Qed.

Lemma resetState_buffer s :
  originalImageData (resetState s) = originalImageData s.
Proof.
  unfold resetState. cbv zeta.
  cbn [originalImageData set_redactionBoxes set_detections].
  destruct (originalImageData s) eqn:Himg; cbn; exact Himg.
Qed.

Lemma gestureStart_buffer g s :
  originalImageData (gestureStart g s) = originalImageData s.
Proof.
  assert (Hgrab : forall pos grabbing,
            originalImageData (grab pos grabbing s) = originalImageData s).
  { intros pos grabbing. unfold grab.
    cbn [draggedBox set_draggedBox store].
    destruct (findBoxAt (fst pos) (snd pos) s) as [a|]; [| reflexivity].
    destruct (isRotated (store s a)); destruct grabbing; reflexivity. }
  destruct g as [cx cy | touches]; cbn [gestureStart];
    unfold mousedown, touchstart;
    destruct (redactionBoxes s); try reflexivity;
    destruct (getPointerPos _ s); try reflexivity; apply Hgrab.
Qed.

Lemma gestureMove_buffer g s :
  originalImageData (gestureMove g s) = originalImageData s.
Proof.
  destruct (draggedBox s) as [a|] eqn:Hd.
  - destruct (gestureMove_held g s a Hd) as [-> | [pos ->]];
      [reflexivity |].
    now destruct (dragTo_frame_more pos a s) as (_ & _ & _ & ->).
  - destruct g as [cx cy | touches]; cbn [gestureMove].
    + unfold mousemove. destruct (redactionBoxes s); [reflexivity |].
      cbn. now rewrite Hd.
    + unfold touchmove. now rewrite Hd.
Qed.

Lemma gestureEnd_buffer g s :
  originalImageData (gestureEnd g s) = originalImageData s.
Proof. destruct g; reflexivity. Qed.

Lemma keydown_buffer key s :
  originalImageData (keydown key s) = originalImageData s.
Proof.
  unfold keydown.
  destruct (String.eqb key "d" || String.eqb key "D"); [| reflexivity].
  cbv zeta. destruct (0 <? _)%nat; [| reflexivity].
  now destruct (redrawCanvas_frame_more (set_debugMode (negb (debugMode s)) s))
    as (_ & _ & _ & -> & _).
Qed.

(** Every event keeps the detect button disabled or the buffer saved. *)
Lemma dispatch_bufferSaved e page :
  bufferSaved page -> bufferSaved (dispatch e page).
Proof.
  unfold bufferSaved. intros Hinv.
  destruct e as [nw nh img rect | r | | g | g | g | key]; cbn [dispatch].
  - unfold imageLoaded. destruct (fittedSize nw nh) as [w h].
    destruct ((w =? 0)%Z || (h =? 0)%Z); cbn [fst snd].
    + exact Hinv.
    + intros _. discriminate.
  - destruct (detectDisabled (snd page)) eqn:Hdis;
      [intros Hen; rewrite Hdis in Hen; discriminate Hen |].
    cbn [fst snd]. intros _. rewrite detectClick_buffer. now apply Hinv.
  - destruct (resetDisabled (snd page)); [exact Hinv |].
    cbn [fst snd]. intros Hen. rewrite resetState_buffer. now apply Hinv.
  - cbn [fst snd]. intros Hen. rewrite gestureStart_buffer. now apply Hinv.
  - cbn [fst snd]. intros Hen. rewrite gestureMove_buffer. now apply Hinv.
  - cbn [fst snd]. intros Hen. rewrite gestureEnd_buffer. now apply Hinv.
  - cbn [fst snd]. intros Hen. rewrite keydown_buffer. now apply Hinv.
Qed.

Lemma run_bufferSaved events : forall page,
  bufferSaved page -> bufferSaved (run events page).
Proof.
  unfold run. induction events as [|e events IH]; intros page Hinv;
    [exact Hinv |].
  cbn [fold_left]. apply IH. now apply dispatch_bufferSaved.
Qed.

(** C8.  On every page that the events of the page can lead to, from a
    start at which the detect button is disabled or a pixel buffer is
    saved, a click on the enabled detect button whose pass raises an
    exception ends in the [catch] clause: the error status "Error
    processing image" is reported and nothing else of the page differs
    from before the click, so the detections, the box set, the canvas
    content, the drag state and the download gate are all left intact. *)
Theorem failed_detection_leaves_page_intact
    (start : State * Buttons) (events : list PageEvent) (r : DetectResult) :
  bufferSaved start ->
  let page := run events start in
  detectDisabled (snd page) = false ->
  raises r (fst page) = true ->
  dispatch (DetectClicked r) page
  = (setStatus "Error processing image" true (fst page), snd page).
Proof.
  intros Hstart page Hen Hr.
  pose proof (run_bufferSaved events start Hstart) as Hinv.
  fold page in Hinv. specialize (Hinv Hen).
  cbn [dispatch]. rewrite Hen. f_equal.
  destruct (raises_cases r (fst page) Hr) as (Hdet & Hcanvas & Hcase).
  destruct Hcase as [-> | (found & det & ds & _ & _ & Hnone)];
    [| contradiction].
  unfold detectClick. rewrite Hdet, Hcanvas. reflexivity.
Qed.

Lemma failed_detection_leaves_page_intact_witness :
  let start := (redactedPage, mkButtons false false) in
  let events := [KeyPressed "d"; DetectClicked (Resolved (Some []))] in
  let page := run events start in
  bufferSaved start /\
  detectDisabled (snd page) = false /\
  raises Rejected (fst page) = true /\
  dispatch (DetectClicked Rejected) page
  = (setStatus "Error processing image" true (fst page), snd page).
Proof.
  intros start events page.
  assert (Hstart : bufferSaved start) by (intros _; discriminate).
  assert (Hen : detectDisabled (snd page) = false) by reflexivity.
  assert (Hr : raises Rejected (fst page) = true) by reflexivity.
  exact (conj Hstart (conj Hen (conj Hr
           (failed_detection_leaves_page_intact start events Rejected
              Hstart Hen Hr)))).
Defined.

(** ** Model loader *)

(** X24.  A first run that finds the file system without the model file,
    fetches the model and writes it, returns the fetched bytes; the next
    run then returns the same bytes from the file system without a single
    [fetch], whatever the network does. *)
Theorem model_is_read_back_from_file_system
    (env : LoaderEnv) (st : nat) (model : list Byte.byte)
    (fetches' : nat -> FetchResult) (persist' : bool) :
  opfs env = Some None ->
  fetches env 0%nat = Fetched true st model ->
  persist env = true ->
  let first := loadModelBufferOPFS env in
  let second :=
    loadModelBufferOPFS (afterRun env first fetches' persist') in
  returned first = Some model /\
  returned second = Some model /\
  fetchCalls second = 0%nat.
Proof.
  intros Ho Hf Hp. cbv zeta.
  assert (E : loadModelBufferOPFS env
              = mkLoaderRun (Some model) 1 (Some model)).
  { unfold loadModelBufferOPFS. now rewrite Ho, Hf, Hp. }
  rewrite E. unfold afterRun, loadModelBufferOPFS.
  cbn [written returned opfs]. rewrite Ho.
  cbn [opfs returned fetchCalls]. repeat split.
Qed.

Lemma model_is_read_back_from_file_system_witness :
  let env :=
    mkLoaderEnv (Some None)
      (fun _ => Fetched true 200 [Byte.x01; Byte.x02]) true in
  let first := loadModelBufferOPFS env in
  let second :=
    loadModelBufferOPFS (afterRun env first (fun _ => NetworkError) false) in
  opfs env = Some None /\
  returned first = Some [Byte.x01; Byte.x02] /\
  returned second = Some [Byte.x01; Byte.x02] /\
  fetchCalls second = 0%nat.
Proof.
  intros env first second.
  exact (conj eq_refl
           (model_is_read_back_from_file_system env 200
              [Byte.x01; Byte.x02] (fun _ => NetworkError) false
              eq_refl eq_refl eq_refl)).
Defined.

Lemma fetchOnly_outcome env k :
  let run := fetchOnly env k in
  fetchCalls run = S k /\ written run = None /\
  (returned run = None ->
   forall st body, fetches env k <> Fetched true st body) /\
  (forall b, returned run = Some b ->
     exists st, fetches env k = Fetched true st b).
Proof.
  cbv zeta. unfold fetchOnly.
  destruct (fetches env k) as [|[|] st body]; cbn; repeat split;
    try discriminate; try congruence.
  intros b [= <-]. now exists st.
Qed.

(** X25.  The loader makes at most two [fetch] calls.  It throws only
    when the last call it made did not bring an [ok] response, so neither
    a missing file system nor a failed write loses a model that the
    network can deliver; and the buffer it returns is the model file or
    the body of an [ok] response of this run, which is also what it
    wrote, if it wrote. *)
Theorem loader_outcome (env : LoaderEnv) :
  let run := loadModelBufferOPFS env in
  (fetchCalls run <= 2)%nat /\
  (returned run = None ->
   exists k, fetchCalls run = S k /\
     forall st body, fetches env k <> Fetched true st body) /\
  (forall b, returned run = Some b ->
     opfs env = Some (Some b) \/
     exists k st, (k < fetchCalls run)%nat /\
                  fetches env k = Fetched true st b) /\
  (forall b, written run = Some b -> returned run = Some b).
Proof.
  cbv zeta. unfold loadModelBufferOPFS.
  assert (Hfo : forall k, (k <= 1)%nat ->
    let run := fetchOnly env k in
    (fetchCalls run <= 2)%nat /\
    (returned run = None ->
     exists k, fetchCalls run = S k /\
       forall st body, fetches env k <> Fetched true st body) /\
    (forall b, returned run = Some b ->
       exists k st, (k < fetchCalls run)%nat /\
                    fetches env k = Fetched true st b) /\
    (forall b, written run = Some b -> returned run = Some b)).
  { intros k Hk. cbv zeta.
    destruct (fetchOnly_outcome env k) as (Hc & Hw & Hnone & Hsome).
    cbv zeta in *. rewrite Hc, Hw. repeat split.
    - lia.
    - intros Hr. exists k. split; [reflexivity | now apply Hnone].
    - intros b Hb. destruct (Hsome b Hb) as [st Hst].
      exists k, st. split; [lia | exact Hst].
    - discriminate. }
  assert (Hlift : forall k, (k <= 1)%nat ->
    let run := fetchOnly env k in
    (fetchCalls run <= 2)%nat /\
    (returned run = None ->
     exists k, fetchCalls run = S k /\
       forall st body, fetches env k <> Fetched true st body) /\
    (forall b, returned run = Some b ->
       opfs env = Some (Some b) \/
       exists k st, (k < fetchCalls run)%nat /\
                    fetches env k = Fetched true st b) /\
    (forall b, written run = Some b -> returned run = Some b)).
  { intros k Hk. destruct (Hfo k Hk) as (H1 & H2 & H3 & H4).
    cbv zeta in *. repeat split; auto. }
  destruct (opfs env) as [[file|]|] eqn:Ho.
  - cbn [returned fetchCalls written]. split; [lia |].
    split; [discriminate |]. split; [| discriminate].
    intros b [= <-]. now left.
  - destruct (fetches env 0%nat) as [|[|] st body] eqn:Hf0.
    + apply (Hlift 1%nat (le_n _)).
    + destruct (persist env).
      * cbn [returned fetchCalls written]. split; [lia |].
        split; [discriminate |]. split; [| auto].
        intros b [= <-]. right. exists 0%nat, st. split; [lia | exact Hf0].
      * apply (Hlift 1%nat (le_n _)).
    + apply (Hlift 1%nat (le_n _)).
  - apply (Hlift 0%nat (Nat.le_0_l _)).
Qed.

(** ** Service worker *)

Module ServiceWorkerFacts.
Import ServiceWorker.








Lemma storageDelete_fold names : forall cs,
  fold_left (fun cs k => storageDelete k cs) names cs
  = filter (fun e => negb (existsb (String.eqb (fst e)) names)) cs.
Proof.
  induction names as [|k names IH]; intros cs; cbn.
  - induction cs as [|e cs IHcs]; [reflexivity | cbn; now rewrite <- IHcs].
  - rewrite IH. unfold storageDelete.
    induction cs as [|e cs IHcs]; [reflexivity |]. cbn.
    destruct (String.eqb (fst e) k); cbn; [exact IHcs |].
    destruct (existsb (String.eqb (fst e)) names); cbn;
      [exact IHcs | now rewrite IHcs].
Qed.

Lemma filter_idempotent {A : Type} (f : A -> bool) (l : list A) :
  filter f (filter f l) = filter f l.
Proof.
  induction l as [|x l IH]; [reflexivity |]. cbn [filter].
  destruct (f x) eqn:Hx; [| exact IH].
  cbn [filter]. now rewrite Hx, IH.
Qed.

Lemma activate_filter cs :
  activate cs = filter (fun e => String.eqb (fst e) CACHE) cs.
Proof.
  unfold activate. rewrite storageDelete_fold.
  apply filter_ext_in. intros e He.
  destruct (String.eqb_spec (fst e) CACHE) as [Heq | Hne].
  - apply negb_true_iff. apply not_true_is_false. intros Hex.
    apply existsb_exists in Hex as (k & Hk & Hek).
    apply filter_In in Hk as [_ Hk]. apply String.eqb_eq in Hek.
    rewrite <- Hek, Heq, String.eqb_refl in Hk. discriminate.
  - apply negb_false_iff. apply existsb_exists. exists (fst e). split.
    + apply filter_In. split; [now apply in_map |].
      apply negb_true_iff. now apply String.eqb_neq.
    + apply String.eqb_refl.
Qed.

(** X26.  Activation purges the old versions: of the caches there were
    it keeps exactly those named as the current version, with their
    content. *)
Theorem activate_keeps_only_current_cache (cs : CacheStorage) :
  (forall e, In e (activate cs) <-> In e cs /\ fst e = CACHE) /\
  (forall name, In name (map fst (activate cs)) -> name = CACHE) /\
  activate (activate cs) = activate cs.
Proof.
  split; [| split].
  - intros e. rewrite activate_filter, filter_In.
    now rewrite String.eqb_eq.
  - intros name Hin. apply in_map_iff in Hin as (e & <- & He).
    rewrite activate_filter in He. apply filter_In in He as [_ He].
    now apply String.eqb_eq.
  - rewrite !activate_filter. apply filter_idempotent.
Qed.








(** X30.  The [fetch] handler is cache first and stores nothing but
    fresh answers with status 200: the storage changes only when a GET
    request that no cache could answer is fetched with status 200; a
    cached URL is answered from the cache whatever the network does; a
    request of another method is not intercepted; and without the network
    an uncached request that is no navigation fails. *)
Theorem fetch_handler_is_cache_first
    (net : Network) (putOk : bool) (req : Request) (cs : CacheStorage) :
  (fst (fetchEvent net putOk req cs) <> cs ->
   method req = "GET"%string /\
   storageMatch (url req) cs = None /\
   exists r, net (url req) = Some r /\ status r = 200%nat) /\
  (forall hit,
     method req = "GET"%string -> storageMatch (url req) cs = Some hit ->
     fetchEvent net putOk req cs = (cs, Answer hit)) /\
  (method req <> "GET"%string ->
   fetchEvent net putOk req cs = (cs, NotIntercepted)) /\
  (method req = "GET"%string -> storageMatch (url req) cs = None ->
   net (url req) = None -> mode req <> "navigate"%string ->
   fetchEvent net putOk req cs = (cs, Failure)).
Proof.
  unfold fetchEvent. split; [| split; [| split]].
  - destruct (String.eqb_spec (method req) "GET") as [Hget | Hne];
      [| intros H; now contradiction H].
    destruct (storageMatch (url req) cs) as [hit|];
      [intros H; now contradiction H |].
    destruct (net (url req)) as [r|].
    + destruct (Nat.eqb_spec (status r) 200) as [Hst | Hst];
        [| intros H; now contradiction H].
      intros _. split; [exact Hget |]. split; [reflexivity |].
      now exists r.
    + destruct (String.eqb (mode req) "navigate");
        intros H; now contradiction H.
  - intros hit -> ->. reflexivity.
  - intros Hne. apply String.eqb_neq in Hne. now rewrite Hne.
  - intros -> -> -> Hmode. apply String.eqb_neq in Hmode.
    now rewrite Hmode.
Qed.

End ServiceWorkerFacts.
